(** * Data forms of poezio: widgets, focus navigation and the reply pass

    A shallow embedding of [src/data_forms.py].  Python exceptions are the
    [Raise] case of the result type [res]; a Python object that is mutated
    in place (a field of the form, a widget in [FormWin.inputs]) is an
    element of a list that is replaced at its index.  A widget refers to its
    field by the field's position in the form, which models the object
    reference [self._field]. *)

From Stdlib Require Import String List Arith Bool Lia.
Import ListNotations.
Open Scope string_scope.
Open Scope nat_scope.

(** ** Results: Python values or raised exceptions *)

Inductive exn : Type :=
| IndexError
| TypeError
| NotImplementedError.

Inductive res (A : Type) : Type :=
| Ok : A -> res A
| Raise : exn -> res A.
Arguments Ok {A} _.
Arguments Raise {A} _.

Definition res_bind {A B : Type} (m : res A) (k : A -> res B) : res B :=
  match m with
  | Ok a => k a
  | Raise e => Raise e
  end.

Notation "'let*' x ':=' m 'in' k" := (res_bind m (fun x => k))
  (at level 200, x name, m at level 100, k at level 200).

(** [l[i]] on a Python list. *)
Definition lookup {A : Type} (l : list A) (i : nat) : res A :=
  match nth_error l i with
  | Some a => Ok a
  | None => Raise IndexError
  end.

(** [l[i] = x] (or an in-place mutation of the object [l[i]]); the
    indices used below are always in range. *)
Fixpoint update_nth {A : Type} (i : nat) (x : A) (l : list A) : list A :=
  match l, i with
  | [], _ => []
  | _ :: l', 0 => x :: l'
  | y :: l', S i' => y :: update_nth i' x l'
  end.

(** ** Fields and forms (sleekxmpp's FormField / Form, as used here) *)

(** The Python values a field's [getValue()] can return. *)
Inductive pyval : Type :=
| PNone
| PBool (b : bool)
| PStr (s : string)
| PList (l : list string).

Record option_ : Type := mkOption {
  o_label : string;
  o_value : string
}.

Record field : Type := mkField {
  f_type : string;
  f_label : string;
  f_instructions : string;
  f_value : pyval;
  f_options : list option_
}.

Record form : Type := mkForm {
  form_title : string;
  form_instructions : string;
  form_fields : list (string * field)   (* getFields(): (name, field) pairs *)
}.

Definition set_label (s : string) (f : field) : field :=
  mkField (f_type f) s (f_instructions f) (f_value f) (f_options f).

(** [setValue] / [setAnswer]: the answer is stored as given. *)
Definition set_value (v : pyval) (f : field) : field :=
  mkField (f_type f) (f_label f) (f_instructions f) v (f_options f).

Definition del_options (f : field) : field :=
  mkField (f_type f) (f_label f) (f_instructions f) (f_value f) [].

(** Mutate, in place, the field at position [i] of the form. *)
Definition modify_field (i : nat) (g : field -> field) (fm : form) : form :=
  match nth_error (form_fields fm) i with
  | Some (name, fld) =>
      mkForm (form_title fm) (form_instructions fm)
             (update_nth i (name, g fld) (form_fields fm))
  | None => fm
  end.

Definition get_field (fm : form) (i : nat) : option field :=
  option_map snd (nth_error (form_fields fm) i).

(** ** Python helpers *)

(** [bool(v)] *)
Definition py_truth (v : pyval) : bool :=
  match v with
  | PNone => false
  | PBool b => b
  | PStr s => negb (String.eqb s "")
  | PList l => match l with [] => false | _ => true end
  end.

(** [s in v]: membership in a list, substring test in a string, and a
    [TypeError] for the other values. *)
Definition py_in (s : string) (v : pyval) : res bool :=
  match v with
  | PList l => Ok (existsb (String.eqb s) l)
  | PStr t => Ok (match String.index 0 s t with Some _ => true | None => false end)
  | _ => Raise TypeError
  end.

(** [v == s] for a string [s]. *)
Definition py_eq_str (v : pyval) (s : string) : bool :=
  match v with
  | PStr t => String.eqb t s
  | _ => false
  end.

Fixpoint res_map {A B : Type} (f : A -> res B) (l : list A) : res (list B) :=
  match l with
  | [] => Ok []
  | a :: l' => let* b := f a in let* bs := res_map f l' in Ok (b :: bs)
  end.

(** ** Input widgets *)

(** The widget classes and their transient state. *)
Inductive input_state : Type :=
| DummyInput
| BooleanWin (last_key : string) (value : bool)
| ListMultiWin (options : list (option_ * bool)) (val_pos : nat)
| ListSingleWin (options : list option_) (val_pos : nat)
| TextSingleWin (text : string) (pos : nat)
| TextPrivateWin (text : string) (pos : nat).

Record widget : Type := mkWidget {
  w_field : nat;        (* self._field, as a position in the form *)
  w_color : nat;        (* self.color *)
  w_state : input_state
}.

Definition is_dummy (w : widget) : bool :=
  match w_state w with
  | DummyInput => true
  | _ => false
  end.

Definition with_state (w : widget) (st : input_state) : widget :=
  mkWidget (w_field w) (w_color w) st.

(** The part of [refresh] that can fail: the list widgets read the option
    under the cursor.  Everything else of [refresh] only draws. *)
Definition refresh (w : widget) : res unit :=
  match w_state w with
  | ListMultiWin opts pos => let* _ := lookup opts pos in Ok tt
  | ListSingleWin opts pos => let* _ := lookup opts pos in Ok tt
  | _ => Ok tt
  end.

(** [FieldInput.set_color] *)
Definition set_color (c : nat) (w : widget) : res widget :=
  let w' := mkWidget (w_field w) c (w_state w) in
  let* _ := refresh w' in Ok w'.

(** Modelled from the spec: [windows.Input.do_command], the generic
    single-line editor that [TextSingleWin] and [TextPrivateWin] inherit
    (it lives in [windows.py], not in src/).  A one-character key is
    inserted at the cursor, backspace deletes before it, the arrows move
    it; other keys are ignored. *)
Definition input_do_command (key : string) (text : string) (pos : nat)
    : string * nat :=
  if String.eqb key "KEY_LEFT" then (text, pred pos)
  else if String.eqb key "KEY_RIGHT" then (text, Nat.min (S pos) (String.length text))
  else if String.eqb key "KEY_BACKSPACE" then
    (String.append (substring 0 (pred pos) text)
                   (substring pos (String.length text - pos) text), pred pos)
  else if Nat.eqb (String.length key) 1 then
    (String.append (substring 0 pos text)
       (String.append key (substring pos (String.length text - pos) text)), S pos)
  else (text, pos).

(** Modelled from the spec: [windows.Input.get_text], which returns the
    text buffer. *)
Definition get_text (text : string) : string := text.

(** [xxx.do_command(key)] for each class; the result is the widget after
    the command, or the exception it raises. *)
Definition do_command_key (w : widget) (key : string) : res widget :=
  match w_state w with
  | DummyInput => Ok w
  | BooleanWin last value =>
      let w' := if String.eqb key "KEY_LEFT" || String.eqb key "KEY_RIGHT"
                then with_state w (BooleanWin key (negb value)) else w in
      let* _ := refresh w' in Ok w'
  | ListMultiWin opts pos =>
      if String.eqb key "KEY_LEFT" then
        let w' := with_state w (ListMultiWin opts (if 0 <? pos then pos - 1 else pos)) in
        let* _ := refresh w' in Ok w'
      else if String.eqb key "KEY_RIGHT" then
        let w' := with_state w
          (ListMultiWin opts (if pos <? length opts - 1 then pos + 1 else pos)) in
        let* _ := refresh w' in Ok w'
      else if String.eqb key " " then
        let* o := lookup opts pos in
        let w' := with_state w
          (ListMultiWin (update_nth pos (fst o, negb (snd o)) opts) pos) in
        let* _ := refresh w' in Ok w'
      else Ok w
  | ListSingleWin opts pos =>
      if String.eqb key "KEY_LEFT" then
        let w' := with_state w (ListSingleWin opts (if 0 <? pos then pos - 1 else pos)) in
        let* _ := refresh w' in Ok w'
      else if String.eqb key "KEY_RIGHT" then
        let w' := with_state w
          (ListSingleWin opts (if pos <? length opts - 1 then pos + 1 else pos)) in
        let* _ := refresh w' in Ok w'
      else Ok w
  | TextSingleWin text pos =>
      let '(t', p') := input_do_command key text pos in Ok (with_state w (TextSingleWin t' p'))
  | TextPrivateWin text pos =>
      let '(t', p') := input_do_command key text pos in Ok (with_state w (TextPrivateWin t' p'))
  end.

(** A Python call [w.do_command(args...)]: [DummyInput.do_command(self)]
    takes no argument, every other [do_command(self, key)] takes one; a
    call with another number of arguments raises [TypeError]. *)
Definition call_do_command (w : widget) (args : list string) : res widget :=
  match w_state w, args with
  | DummyInput, [] => Ok w
  | DummyInput, _ => Raise TypeError
  | _, [key] => do_command_key w key
  | _, _ => Raise TypeError
  end.

(** [xxx.reply()]: the form after the widget wrote its field.
    [DummyInput] inherits [FieldInput.reply], which raises. *)
Definition widget_reply (w : widget) (fm : form) : res form :=
  let i := w_field w in
  match w_state w with
  | DummyInput => Raise NotImplementedError
  | BooleanWin _ value =>
      let fm1 := modify_field i (set_label "") fm in
      Ok (modify_field i (set_value (PBool value)) fm1)
  | ListMultiWin opts _ =>
      let fm1 := modify_field i (set_label "") fm in
      let fm2 := modify_field i del_options fm1 in
      let values := map (fun o => o_value (fst o)) (filter (fun o => snd o) opts) in
      Ok (modify_field i (set_value (PList values)) fm2)
  | ListSingleWin opts pos =>
      let fm1 := modify_field i (set_label "") fm in
      let fm2 := modify_field i del_options fm1 in
      let* o := lookup opts pos in
      Ok (modify_field i (set_value (PStr (o_value o))) fm2)
  | TextSingleWin text _ | TextPrivateWin text _ =>
      let fm1 := modify_field i (set_label "") fm in
      Ok (modify_field i (set_value (PStr (get_text text))) fm1)
  end.

(** ** Building the widgets ([FormWin.input_classes], [FormWin.__init__]) *)

Inductive input_class : Type :=
| CBoolean | CDummy | CTextSingle | CListMulti | CListSingle | CTextPrivate.

Definition input_classes (ty : string) : option input_class :=
  if String.eqb ty "boolean" then Some CBoolean
  else if String.eqb ty "fixed" then Some CDummy
  else if String.eqb ty "jid-single" then Some CTextSingle
  else if String.eqb ty "list-multi" then Some CListMulti
  else if String.eqb ty "list-single" then Some CListSingle
  else if String.eqb ty "text-private" then Some CTextPrivate
  else if String.eqb ty "text-single" then Some CTextSingle
  else None.

(** [for i, option in enumerate(opts): if value == option['value']: val_pos = i] *)
Fixpoint list_single_pos (v : pyval) (opts : list option_) (i acc : nat) : nat :=
  match opts with
  | [] => acc
  | o :: opts' =>
      list_single_pos v opts' (S i) (if py_eq_str v (o_value o) then i else acc)
  end.

(** The [__init__] of each class, for the field at position [i]. *)
Definition construct (c : input_class) (i : nat) (fld : field) : res widget :=
  match c with
  | CDummy => Ok (mkWidget i 14 DummyInput)
  | CBoolean => Ok (mkWidget i 14 (BooleanWin "KEY_RIGHT" (py_truth (f_value fld))))
  | CListMulti =>
      let values := f_value fld in
      let* opts := res_map (fun o => let* b := py_in (o_value o) values in Ok (o, b))
                           (f_options fld) in
      Ok (mkWidget i 14 (ListMultiWin opts 0))
  | CListSingle =>
      let opts := f_options fld in
      Ok (mkWidget i 14 (ListSingleWin opts (list_single_pos (f_value fld) opts 0 0)))
  | CTextSingle | CTextPrivate =>
      let text := match f_value fld with PStr s => s | _ => "" end in
      let st := match c with
                | CTextPrivate => TextPrivateWin text (String.length text)
                | _ => TextSingleWin text (String.length text) end in
      Ok (mkWidget i 14 st)
  end.

(** An element of [FormWin.inputs]: [{'label', 'instructions', 'input'}]. *)
Record entry : Type := mkEntry {
  e_label : pyval;
  e_instructions : string;
  e_input : widget
}.

(** One iteration of the loop of [FormWin.__init__], on the field at
    position [i]: the form (the field may be rewritten) and the new entry,
    if any. *)
Definition make_input (fm : form) (i : nat) (fld : field) : res (form * option entry) :=
  if String.eqb (f_type fld) "hidden" then Ok (fm, None) else
  let '(fm1, c) :=
    match input_classes (f_type fld) with
    | Some c => (fm, c)
    | None => (modify_field i (set_value (PStr (f_type fld))) fm, CTextSingle)
    end in
  match get_field fm1 i with
  | None => Ok (fm1, None)
  | Some fld1 =>
      let instructions := f_instructions fld1 in
      let label := if String.eqb (f_type fld1) "fixed" then f_value fld1
                   else PStr (f_label fld1) in
      let* inp := construct c i fld1 in
      Ok (fm1, Some (mkEntry label instructions inp))
  end.

Record formwin : Type := mkFormWin {
  inputs : list entry;
  current_input : nat
}.

Fixpoint build_inputs (fm : form) (flds : list (string * field)) (i : nat)
    : res (form * list entry) :=
  match flds with
  | [] => Ok (fm, [])
  | (_, fld) :: flds' =>
      let* r := make_input fm i fld in
      let '(fm1, oe) := r in
      let* r' := build_inputs fm1 flds' (S i) in
      let '(fm2, es) := r' in
      Ok (fm2, match oe with Some e => e :: es | None => es end)
  end.

(** [FormWin(form, ...)]: the form after construction and the window. *)
Definition formwin_init (fm : form) : res (form * formwin) :=
  let* r := build_inputs fm (form_fields fm) 0 in
  let '(fm1, es) := r in
  Ok (fm1, mkFormWin es 0).

(** ** Focus navigation ([FormWin.go_to_next_input], [go_to_previous_input]) *)

Definition entry_is_dummy (e : entry) : bool := is_dummy (e_input e).

(** [self.inputs[i]['input'].set_color(c)] *)
Definition set_input_color (c : nat) (i : nat) (es : list entry) : res (list entry) :=
  let* e := lookup es i in
  let* w := set_color c (e_input e) in
  Ok (update_nth i (mkEntry (e_label e) (e_instructions e) w) es).

(** [while cur+jump != len(inputs)-1 and inputs[cur+jump]['input'].is_dummy():
        jump += 1]
    ([fuel] bounds the iterations; [length inputs] of them suffice). *)
Fixpoint next_scan (es : list entry) (cur jump fuel : nat) : res nat :=
  match fuel with
  | 0 => Ok jump
  | S fuel' =>
      if Nat.eqb (cur + jump) (length es - 1) then Ok jump else
      let* e := lookup es (cur + jump) in
      if entry_is_dummy e then next_scan es cur (S jump) fuel' else Ok jump
  end.

Definition go_to_next_input (fw : formwin) : res formwin :=
  let es := inputs fw in
  let c := current_input fw in
  match es with
  | [] => Ok fw
  | _ =>
    if Nat.eqb c (length es - 1) then Ok fw else
    let* es1 := set_input_color 14 c es in
    let c1 := c + 1 in
    let* jump := next_scan es1 c1 0 (length es1) in
    let* e := lookup es1 (c1 + jump) in
    if entry_is_dummy e then Ok (mkFormWin es1 c1) else
    let c2 := c1 + jump in
    let* es2 := set_input_color 13 c2 es1 in
    Ok (mkFormWin es2 c2)
  end.

(** [while cur-jump > 0 and inputs[cur+jump]['input'].is_dummy(): jump += 1]
    ([cur - jump > 0] is [jump < cur]; the loop runs at most [cur] times). *)
Fixpoint prev_scan (es : list entry) (cur jump fuel : nat) : res nat :=
  match fuel with
  | 0 => Ok jump
  | S fuel' =>
      if jump <? cur then
        let* e := lookup es (cur + jump) in
        if entry_is_dummy e then prev_scan es cur (S jump) fuel' else Ok jump
      else Ok jump
  end.

Definition go_to_previous_input (fw : formwin) : res formwin :=
  let es := inputs fw in
  let c := current_input fw in
  match es with
  | [] => Ok fw
  | _ =>
    if Nat.eqb c 0 then Ok fw else
    let* es1 := set_input_color 14 c es in
    let c1 := c - 1 in
    let* jump := prev_scan es1 c1 0 c1 in
    let* e := lookup es1 (c1 + jump) in
    if entry_is_dummy e then Ok (mkFormWin es1 c1) else
    let c2 := c1 - jump in
    let* es2 := set_input_color 13 c2 es1 in
    Ok (mkFormWin es2 c2)
  end.

(** [FormWin.on_input(key)] *)
Definition formwin_on_input (fw : formwin) (key : string) : res formwin :=
  match inputs fw with
  | [] => Ok fw
  | _ =>
    let c := current_input fw in
    let* e := lookup (inputs fw) c in
    let* w := call_do_command (e_input e) [key] in
    Ok (mkFormWin (update_nth c (mkEntry (e_label e) (e_instructions e) w) (inputs fw)) c)
  end.

(** ** Cancelling and sending ([DataFormsTab.on_cancel], [on_send]) *)

(** What the tab does, in order, as seen by its caller. *)
Inductive event : Type :=
| EvFormReply                   (* self._form.reply() *)
| EvWidgetReply (k : nat)       (* self.inputs[k]['input'].reply() *)
| EvClearTitle                  (* self._form['title'] = '' *)
| EvClearInstructions           (* self._form['instructions'] = '' *)
| EvOnSend (fm : form)          (* self._on_send(self._form) *)
| EvOnCancel (fm : form).       (* self._on_cancel(self._form) *)

Fixpoint reply_inputs (es : list entry) (k : nat) (fm : form) : res (list event * form) :=
  match es with
  | [] => Ok ([], fm)
  | e :: es' =>
      if entry_is_dummy e then reply_inputs es' (S k) fm else
      let* fm1 := widget_reply (e_input e) fm in
      let* r := reply_inputs es' (S k) fm1 in
      Ok (EvWidgetReply k :: fst r, snd r)
  end.

(** [FormWin.reply()] *)
Definition formwin_reply (fw : formwin) (fm : form) : res (list event * form) :=
  let* r := reply_inputs (inputs fw) 0 fm in
  let '(evs, fm1) := r in
  let fm2 := mkForm "" (form_instructions fm1) (form_fields fm1) in
  let fm3 := mkForm (form_title fm2) "" (form_fields fm2) in
  Ok ((evs ++ [EvClearTitle; EvClearInstructions])%list, fm3).

(** The state of a [DataFormsTab] that these commands touch: the form
    (shared with the [FormWin]) and the [FormWin]. *)
Record session : Type := mkSession {
  s_form : form;
  s_win : formwin
}.

(** [DataFormsTab.on_cancel] *)
Definition on_cancel (s : session) : session * list event :=
  (s, [EvOnCancel (s_form s)]).

(** [DataFormsTab.on_send]; [form_reply] is sleekxmpp's [Form.reply]. *)
Definition on_send (form_reply : form -> form) (s : session)
    : res (session * list event) :=
  let fm0 := form_reply (s_form s) in
  let* r := formwin_reply (s_win s) fm0 in
  let '(evs, fm1) := r in
  Ok (mkSession fm1 (s_win s), (EvFormReply :: evs ++ [EvOnSend fm1])%list).

(** [DataFormsTab(core, form, ...)]: the session right after construction. *)
Definition session_init (fm : form) : res session :=
  let* r := formwin_init fm in
  let '(fm1, fw) := r in
  Ok (mkSession fm1 fw).

(** ** Readings of the spec used in the statements *)

(** Whether the widget at position [k] of the list is inert. *)
Definition inert_at (es : list entry) (k : nat) : bool :=
  match nth_error es k with
  | Some e => entry_is_dummy e
  | None => false
  end.

(** A widget whose redraw reads no missing option. *)
Definition refreshable (e : entry) : Prop := refresh (e_input e) = Ok tt.

(** The position in focus order of every widget that is not inert: the
    widgets whose [reply] the submit pass is to invoke, in order. *)
Fixpoint nondummy_indices (es : list entry) (k : nat) : list nat :=
  match es with
  | [] => []
  | e :: es' =>
      if entry_is_dummy e then nondummy_indices es' (S k)
      else k :: nondummy_indices es' (S k)
  end.

(** The answer a widget's transient state stands for. *)
Definition committed_answer (w : widget) : pyval :=
  match w_state w with
  | DummyInput => PNone
  | BooleanWin _ value => PBool value
  | ListMultiWin opts _ =>
      PList (map (fun o => o_value (fst o)) (filter (fun o => snd o) opts))
  | ListSingleWin opts pos =>
      PStr (match nth_error opts pos with Some o => o_value o | None => "" end)
  | TextSingleWin text _ | TextPrivateWin text _ => PStr text
  end.

(** The field-set invariant of the data model for list-single fields:
    their options are not empty. *)
Definition list_single_ok (fm : form) : bool :=
  forallb (fun p => if String.eqb (f_type (snd p)) "list-single"
                    then negb (Nat.eqb (length (f_options (snd p))) 0) else true)
          (form_fields fm).

(** The names and types of the fields, which no operation here changes. *)
Definition kinds (fm : form) : list (string * string) :=
  map (fun p => (fst p, f_type (snd p))) (form_fields fm).

(** A widget whose list-single cursor, if any, is on an option. *)
Definition pos_ok (w : widget) : Prop :=
  forall opts pos, w_state w = ListSingleWin opts pos -> pos < length opts.

(** ** Concrete forms *)

Definition mk_field (ty : string) (v : pyval) (opts : list option_) : field :=
  mkField ty "Label" "" v opts.

Definition text_field (v : string) : field := mk_field "text-single" (PStr v) [].
Definition fixed_field : field := mk_field "fixed" (PStr "Section") [].
Definition hidden_field : field := mk_field "hidden" (PStr "token") [].

Definition mk_form (fs : list (string * field)) : form :=
  mkForm "Title" "Instructions" fs.

(** A fixed label before a text field. *)
Definition form_fixed_text : form :=
  mk_form [("intro", fixed_field); ("nick", text_field "louiz")].

(** Two text fields. *)
Definition form_two_texts : form :=
  mk_form [("first", text_field "a"); ("second", text_field "b")].

(** The spec's example: a hidden, a fixed and a text-single field. *)
Definition form_hidden_fixed_text : form :=
  mk_form [("token", hidden_field); ("intro", fixed_field);
           ("greeting", text_field "hello")].

Definition options_ABC : list option_ :=
  [mkOption "A" "A"; mkOption "B" "B"; mkOption "C" "C"].

(** A list-single field without options. *)
Definition form_empty_single : form :=
  mk_form [("choice", mk_field "list-single" PNone [])].

(** A field of a type the code does not know. *)
Definition form_custom : form :=
  mk_form [("x", mk_field "custom-x" PNone [])].




(** The window of a constructed session, and the same window with its
    focus index set to [k]. *)
Definition win_of (r : res session) : formwin :=
  match r with Ok s => s_win s | Raise _ => mkFormWin [] 0 end.

Definition focus_at (k : nat) (r : res session) : formwin :=
  mkFormWin (inputs (win_of r)) k.

(** A sequence of keys given to [FormWin.on_input] while the focus stays
    on widget [w]. *)
Fixpoint run_keys (w : widget) (keys : list string) : res widget :=
  match keys with
  | [] => Ok w
  | k :: ks => let* w' := call_do_command w [k] in run_keys w' ks
  end.

Definition is_arrow (key : string) : bool :=
  String.eqb key "KEY_LEFT" || String.eqb key "KEY_RIGHT".

(** A field as [FormWin.__init__] leaves it: a visible field of an unknown
    type gets its type name as value. *)
Definition init_field (fld : field) : field :=
  if String.eqb (f_type fld) "hidden" then fld else
  match input_classes (f_type fld) with
  | Some _ => fld
  | None => set_value (PStr (f_type fld)) fld
  end.

(** What an entry of [FormWin.inputs] records: the position of its field,
    its label, its instructions and whether it is inert. *)
Definition entry_summary (e : entry) : nat * pyval * string * bool :=
  (w_field (e_input e), e_label e, e_instructions e, is_dummy (e_input e)).

(** The entry expected for each visible field, in field order. *)
Fixpoint visible_summary (flds : list (string * field)) (i : nat)
    : list (nat * pyval * string * bool) :=
  match flds with
  | [] => []
  | (_, fld) :: flds' =>
      if String.eqb (f_type fld) "hidden" then visible_summary flds' (S i)
      else (i, (if String.eqb (f_type fld) "fixed" then f_value fld
                else PStr (f_label fld)),
            f_instructions fld, String.eqb (f_type fld) "fixed")
           :: visible_summary flds' (S i)
  end.

(** An entry without its color, which only navigation changes. *)
Definition strip_color (e : entry) : pyval * string * nat * input_state :=
  (e_label e, e_instructions e, w_field (e_input e), w_state (e_input e)).

(** ** General lemmas *)

Lemma nth_error_update_nth {A : Type} (l : list A) (i k : nat) (x : A) :
  nth_error (update_nth i x l) k =
  if Nat.eqb k i then match nth_error l k with Some _ => Some x | None => None end
  else nth_error l k.
Proof.
  revert i k; induction l as [|y l IH]; intros i k.
  - destruct i, k; simpl; try reflexivity; destruct (Nat.eqb k i); reflexivity.
  - destruct i as [|i], k as [|k]; simpl; try reflexivity; try apply IH.
Qed.

Lemma length_update_nth {A : Type} (l : list A) (i : nat) (x : A) :
  length (update_nth i x l) = length l.
Proof.
  revert i; induction l as [|y l IH]; intros [|i]; simpl; auto.
Qed.

Lemma In_update_nth {A : Type} (l : list A) (i : nat) (x y : A) :
  In y (update_nth i x l) -> In y l \/ y = x.
Proof.
  revert i; induction l as [|z l IH]; intros [|i] H; simpl in *; try tauto.
  - destruct H as [H|H]; auto.
  - destruct H as [H|H]; auto. destruct (IH i H); auto.
Qed.

Lemma lookup_in_range {A : Type} (l : list A) (k : nat) :
  k < length l -> exists a, nth_error l k = Some a /\ lookup l k = Ok a.
Proof.
  intros Hk. destruct (nth_error l k) as [a|] eqn:E.
  - exists a. unfold lookup. rewrite E. auto.
  - apply nth_error_None in E. lia.
Qed.

Lemma inert_at_nth (es : list entry) (k : nat) (e : entry) :
  nth_error es k = Some e -> inert_at es k = entry_is_dummy e.
Proof. intros H. unfold inert_at. rewrite H. reflexivity. Qed.

(** ** Navigation lemmas *)

Lemma set_input_color_spec (c i : nat) (es : list entry) :
  Forall refreshable es -> i < length es ->
  exists es', set_input_color c i es = Ok es' /\ length es' = length es /\
    (forall k, inert_at es' k = inert_at es k) /\ Forall refreshable es'.
Proof.
  intros Hr Hi.
  destruct (lookup_in_range es i Hi) as [e [He Hl]].
  assert (Hre : refresh (e_input e) = Ok tt).
  { rewrite Forall_forall in Hr. apply (Hr e). eapply nth_error_In; eauto. }
  set (w' := mkWidget (w_field (e_input e)) c (w_state (e_input e))).
  exists (update_nth i (mkEntry (e_label e) (e_instructions e) w') es).
  unfold set_input_color. rewrite Hl. cbn [res_bind].
  unfold set_color. fold w'.
  assert (Hrw : refresh w' = Ok tt) by (unfold refresh in *; exact Hre).
  rewrite Hrw. cbn [res_bind].
  split; [reflexivity|]. split; [apply length_update_nth|]. split.
  - intros k. unfold inert_at. rewrite nth_error_update_nth.
    destruct (Nat.eqb_spec k i) as [-> | Hne]; [rewrite He; reflexivity|reflexivity].
  - rewrite Forall_forall in *. intros y Hy.
    destruct (In_update_nth _ _ _ _ Hy) as [Hy' | ->]; [auto|exact Hrw].
Qed.

Lemma next_scan_spec (fuel : nat) (es : list entry) (cur jump : nat) :
  0 < length es -> cur + jump <= length es - 1 ->
  length es - 1 - (cur + jump) < fuel ->
  exists j, next_scan es cur jump fuel = Ok j /\ jump <= j /\
    cur + j <= length es - 1 /\
    (forall k, jump <= k < j -> inert_at es (cur + k) = true) /\
    (cur + j = length es - 1 \/ inert_at es (cur + j) = false).
Proof.
  revert jump; induction fuel as [|fuel IH]; intros jump Hn Hle Hf; [lia|].
  simpl. destruct (Nat.eqb_spec (cur + jump) (length es - 1)) as [Heq|Hne].
  - exists jump. repeat split; auto; intros; lia.
  - destruct (lookup_in_range es (cur + jump) ltac:(lia)) as [e [He Hl]].
    rewrite Hl. cbn [res_bind].
    destruct (entry_is_dummy e) eqn:Hd.
    + destruct (IH (S jump)) as [j [Hj [Hj1 [Hj2 [Hj3 Hj4]]]]]; try lia.
      exists j. repeat split; auto; try lia.
      intros k Hk. destruct (Nat.eq_dec k jump) as [-> | ]; [|apply Hj3; lia].
      rewrite (inert_at_nth _ _ _ He). exact Hd.
    + exists jump. repeat split; auto; try lia.
      right. rewrite (inert_at_nth _ _ _ He). exact Hd.
Qed.









(** ** C1: where the focus can rest *)




(** ** C2: advance then retreat *)




(** ** Field updates *)

Lemma get_field_modify (fm : form) (i k : nat) (g : field -> field) :
  get_field (modify_field i g fm) k =
  if Nat.eqb k i then option_map g (get_field fm k) else get_field fm k.
Proof.
  unfold get_field, modify_field.
  destruct (nth_error (form_fields fm) i) as [[name fld]|] eqn:E; simpl.
  - rewrite nth_error_update_nth.
    destruct (Nat.eqb_spec k i) as [-> | Hne]; [rewrite E; reflexivity|reflexivity].
  - destruct (Nat.eqb_spec k i) as [-> | Hne]; [rewrite E; reflexivity|reflexivity].
Qed.

Lemma get_field_modify_same (fm : form) (i : nat) (g : field -> field) :
  get_field (modify_field i g fm) i = option_map g (get_field fm i).
Proof. rewrite get_field_modify, Nat.eqb_refl. reflexivity. Qed.

(** ** C3: keys on a focused fixed label *)

(** C3 (code bug): when the focused widget is a [DummyInput], whatever the
    key, [FormWin.on_input] calls [do_command(key)] on it, whose Python
    signature takes no key, so the call raises [TypeError]. *)
Theorem C3_dummy_focus_raises (fw : formwin) (key : string) :
  inert_at (inputs fw) (current_input fw) = true ->
  formwin_on_input fw key = Raise TypeError.
Proof.
  destruct fw as [es c]; simpl. intros H. unfold formwin_on_input; simpl.
  unfold inert_at in H.
  destruct (nth_error es c) as [e|] eqn:E; [|discriminate].
  destruct es as [|e0 es0] eqn:Ees; [destruct c; discriminate|]. rewrite <- Ees in *.
  unfold lookup. rewrite E. cbn [res_bind].
  unfold entry_is_dummy, is_dummy in H. unfold call_do_command.
  destruct (w_state (e_input e)); try discriminate. reflexivity.
Qed.

Lemma C3_dummy_focus_raises_witness :
  inert_at (inputs (win_of (session_init form_fixed_text)))
           (current_input (win_of (session_init form_fixed_text))) = true /\
  formwin_on_input (win_of (session_init form_fixed_text)) "a" = Raise TypeError.
Proof.
  split; [vm_compute; reflexivity|].
  apply C3_dummy_focus_raises. vm_compute. reflexivity.
Defined.

(** ** C4: list fields without options *)

(** C4 (counterexample): a list-single field without options builds a
    widget whose reply raises [IndexError], so submitting the form fails. *)
Lemma C4_empty_list_single_submit_raises :
  exists s, session_init form_empty_single = Ok s /\
    on_send (fun f => f) s = Raise IndexError.
Proof. eexists; split; reflexivity. Qed.

(** C4 (amended): a list-single or list-multi field without options builds
    its widget with an empty option list and the cursor at 0, and a
    list-multi reply then clears label and options and answers the empty
    list; but list-single reply raises [IndexError], left and right on
    either widget and space on list-multi raise [IndexError], and space on
    list-single is ignored. *)
Theorem C4_empty_options_by_design :
  (forall fm i fld, f_type fld = "list-single" -> f_options fld = [] ->
     get_field fm i = Some fld ->
     exists e, make_input fm i fld = Ok (fm, Some e) /\
               w_state (e_input e) = ListSingleWin [] 0) /\
  (forall fm i fld, f_type fld = "list-multi" -> f_options fld = [] ->
     get_field fm i = Some fld ->
     exists e, make_input fm i fld = Ok (fm, Some e) /\
               w_state (e_input e) = ListMultiWin [] 0) /\
  (forall w fm fld p, w_state w = ListMultiWin [] p ->
     get_field fm (w_field w) = Some fld ->
     exists fm', widget_reply w fm = Ok fm' /\
       get_field fm' (w_field w) =
         Some (mkField (f_type fld) "" (f_instructions fld) (PList []) [])) /\
  (forall w fm p, w_state w = ListSingleWin [] p -> widget_reply w fm = Raise IndexError) /\
  (forall w p key, w_state w = ListMultiWin [] p -> In key ["KEY_LEFT"; "KEY_RIGHT"; " "] ->
     do_command_key w key = Raise IndexError) /\
  (forall w p key, w_state w = ListSingleWin [] p -> In key ["KEY_LEFT"; "KEY_RIGHT"] ->
     do_command_key w key = Raise IndexError) /\
  (forall w p, w_state w = ListSingleWin [] p -> do_command_key w " " = Ok w).
Proof.
  split; [|split; [|split; [|split; [|split; [|split]]]]].
  - intros fm i fld Ht Ho Hg. unfold make_input. rewrite Ht. simpl.
    rewrite Hg, Ht. simpl. rewrite Ho. eexists; split; reflexivity.
  - intros fm i fld Ht Ho Hg. unfold make_input. rewrite Ht. simpl.
    rewrite Hg, Ht. simpl. rewrite Ho. eexists; split; reflexivity.
  - intros w fm fld p Hw Hg. unfold widget_reply. rewrite Hw.
    eexists; split; [reflexivity|]. simpl.
    rewrite !get_field_modify_same, Hg. reflexivity.
  - intros w fm p Hw. unfold widget_reply. rewrite Hw. destruct p; reflexivity.
  - intros w p key Hw Hk. unfold do_command_key. rewrite Hw.
    simpl in Hk. destruct Hk as [<- | [<- | [<- | []]]]; simpl;
      destruct p as [|[|p]]; reflexivity.
  - intros w p key Hw Hk. unfold do_command_key. rewrite Hw.
    simpl in Hk. destruct Hk as [<- | [<- | []]]; simpl;
      destruct p as [|[|p]]; reflexivity.
  - intros w p Hw. unfold do_command_key. rewrite Hw. reflexivity.
Qed.

(** ** C6, C7, C10: the widgets' replies *)

(** C6: a list-multi reply clears the field's label and options and answers
    the values of the selected options, in option order; with the
    selections [A: true, B: false, C: true] the answer is [[A; C]]. *)
Theorem C6_list_multi_reply :
  (forall w fm opts pos fld, w_state w = ListMultiWin opts pos ->
     get_field fm (w_field w) = Some fld ->
     exists fm', widget_reply w fm = Ok fm' /\
       get_field fm' (w_field w) =
         Some (mkField (f_type fld) "" (f_instructions fld)
                 (PList (map (fun o => o_value (fst o)) (filter (fun o => snd o) opts))) [])) /\
  (forall w fm fld pos, w_state w = ListMultiWin (combine options_ABC [true; false; true]) pos ->
     get_field fm (w_field w) = Some fld ->
     exists fm' fld', widget_reply w fm = Ok fm' /\
       get_field fm' (w_field w) = Some fld' /\ f_value fld' = PList ["A"; "C"]).
Proof.
  assert (H : forall w fm opts pos fld, w_state w = ListMultiWin opts pos ->
     get_field fm (w_field w) = Some fld ->
     exists fm', widget_reply w fm = Ok fm' /\
       get_field fm' (w_field w) =
         Some (mkField (f_type fld) "" (f_instructions fld)
                 (PList (map (fun o => o_value (fst o)) (filter (fun o => snd o) opts))) [])).
  { intros w fm opts pos fld Hw Hg. unfold widget_reply. rewrite Hw.
    eexists; split; [reflexivity|].
    rewrite !get_field_modify_same, Hg. reflexivity. }
  split; [exact H|].
  intros w fm fld pos Hw Hg. destruct (H w fm _ pos fld Hw Hg) as [fm' [H1 H2]].
  exists fm'. eexists. split; [exact H1|]. split; [exact H2|]. reflexivity.
Qed.

Lemma C6_list_multi_reply_witness :
  exists fm', widget_reply (mkWidget 0 14 (ListMultiWin (combine options_ABC [true; false; true]) 0))
                (mk_form [("m", mk_field "list-multi" (PList ["A"; "C"]) options_ABC)]) = Ok fm' /\
    get_field fm' 0 = Some (mkField "list-multi" "" "" (PList ["A"; "C"]) []).
Proof.
  destruct (proj1 C6_list_multi_reply
    (mkWidget 0 14 (ListMultiWin (combine options_ABC [true; false; true]) 0))
    (mk_form [("m", mk_field "list-multi" (PList ["A"; "C"]) options_ABC)])
    (combine options_ABC [true; false; true]) 0
    (mk_field "list-multi" (PList ["A"; "C"]) options_ABC) eq_refl eq_refl) as [fm' [H1 H2]].
  exists fm'. split; [exact H1|exact H2].
Defined.

(** C7: a list-single reply with the cursor on option [i] clears the
    field's label and options and answers that option's value; with the
    cursor at index 2 of [[A; B; C]] the answer is [C]. *)
Theorem C7_list_single_reply :
  (forall w fm opts i fld, w_state w = ListSingleWin opts i -> i < length opts ->
     get_field fm (w_field w) = Some fld ->
     exists fm' o, nth_error opts i = Some o /\ widget_reply w fm = Ok fm' /\
       get_field fm' (w_field w) =
         Some (mkField (f_type fld) "" (f_instructions fld) (PStr (o_value o)) [])) /\
  (forall w fm fld, w_state w = ListSingleWin options_ABC 2 ->
     get_field fm (w_field w) = Some fld ->
     exists fm', widget_reply w fm = Ok fm' /\
       get_field fm' (w_field w) =
         Some (mkField (f_type fld) "" (f_instructions fld) (PStr "C") [])).
Proof.
  assert (H : forall w fm opts i fld, w_state w = ListSingleWin opts i -> i < length opts ->
     get_field fm (w_field w) = Some fld ->
     exists fm' o, nth_error opts i = Some o /\ widget_reply w fm = Ok fm' /\
       get_field fm' (w_field w) =
         Some (mkField (f_type fld) "" (f_instructions fld) (PStr (o_value o)) [])).
  { intros w fm opts i fld Hw Hi Hg.
    destruct (lookup_in_range opts i Hi) as [o [Ho Hl]].
    unfold widget_reply. rewrite Hw, Hl. cbn [res_bind].
    eexists; exists o. split; [exact Ho|]. split; [reflexivity|].
    rewrite !get_field_modify_same, Hg. reflexivity. }
  split; [exact H|].
  intros w fm fld Hw Hg.
  destruct (H w fm options_ABC 2 fld Hw ltac:(simpl; lia) Hg) as [fm' [o [Ho [H1 H2]]]].
  simpl in Ho. injection Ho as <-. exists fm'. split; assumption.
Qed.

Lemma C7_list_single_reply_witness :
  exists fm', widget_reply (mkWidget 0 14 (ListSingleWin options_ABC 2))
                (mk_form [("s", mk_field "list-single" (PStr "C") options_ABC)]) = Ok fm' /\
    get_field fm' 0 = Some (mkField "list-single" "" "" (PStr "C") []).
Proof.
  exact (proj2 C7_list_single_reply (mkWidget 0 14 (ListSingleWin options_ABC 2))
    (mk_form [("s", mk_field "list-single" (PStr "C") options_ABC)])
    (mk_field "list-single" (PStr "C") options_ABC) eq_refl eq_refl).
Defined.

(** C10: the reply of every widget that is not inert (whose list-single
    cursor, if any, is on an option) clears the field's label and writes the
    widget's state as the field's answer. *)
Theorem C10_reply_clears_label (w : widget) (fm : form) (fld : field) :
  is_dummy w = false ->
  get_field fm (w_field w) = Some fld ->
  (forall opts pos, w_state w = ListSingleWin opts pos -> pos < length opts) ->
  exists fm' fld', widget_reply w fm = Ok fm' /\
    get_field fm' (w_field w) = Some fld' /\
    f_label fld' = "" /\ f_value fld' = committed_answer w.
Proof.
  intros Hd Hg Hpos. unfold widget_reply, committed_answer, is_dummy in *.
  destruct (w_state w) as [|lk v|opts p|opts p|t p|t p] eqn:Hw; try discriminate.
  - do 2 eexists. split; [reflexivity|].
    rewrite !get_field_modify_same, Hg. split; [reflexivity|]. auto.
  - do 2 eexists. split; [reflexivity|].
    rewrite !get_field_modify_same, Hg. split; [reflexivity|]. auto.
  - destruct (lookup_in_range opts p (Hpos opts p eq_refl)) as [o [Ho Hl]].
    rewrite Hl, Ho. cbn [res_bind]. do 2 eexists. split; [reflexivity|].
    rewrite !get_field_modify_same, Hg. split; [reflexivity|]. auto.
  - do 2 eexists. split; [reflexivity|].
    rewrite !get_field_modify_same, Hg. split; [reflexivity|]. auto.
  - do 2 eexists. split; [reflexivity|].
    rewrite !get_field_modify_same, Hg. split; [reflexivity|]. auto.
Qed.

Lemma C10_reply_clears_label_witness :
  exists fm' fld', widget_reply (mkWidget 0 14 (BooleanWin "KEY_LEFT" true))
                     (mk_form [("b", mk_field "boolean" (PBool false) [])]) = Ok fm' /\
    get_field fm' 0 = Some fld' /\ f_label fld' = "" /\ f_value fld' = PBool true.
Proof.
  apply (C10_reply_clears_label (mkWidget 0 14 (BooleanWin "KEY_LEFT" true))
           (mk_form [("b", mk_field "boolean" (PBool false) [])])
           (mk_field "boolean" (PBool false) [])).
  - reflexivity.
  - reflexivity.
  - intros opts pos H. discriminate H.
Defined.

(** ** C8: cancelling *)

(** C8: cancel hands the current form to [on_cancel] and leaves the whole
    session (form and widgets) as it was. *)
Theorem C8_cancel_frame (s : session) :
  on_cancel s = (s, [EvOnCancel (s_form s)]).
Proof. reflexivity. Qed.

(** ** C9: unknown field types *)

(** C9: a non-hidden field of a type missing from [input_classes] gets a
    [TextSingleWin] whose text is the type name (the field's value is set
    to it), and a reply of that unedited widget answers the type name. *)
Theorem C9_unknown_type_text (fm : form) (i : nat) (name : string) (fld : field) :
  nth_error (form_fields fm) i = Some (name, fld) ->
  input_classes (f_type fld) = None ->
  f_type fld <> "hidden" ->
  exists fm1 e, make_input fm i fld = Ok (fm1, Some e) /\
    get_field fm1 i = Some (set_value (PStr (f_type fld)) fld) /\
    w_state (e_input e) = TextSingleWin (f_type fld) (String.length (f_type fld)) /\
    w_field (e_input e) = i /\
    (forall fm2 fld2, get_field fm2 i = Some fld2 ->
       exists fm3, widget_reply (e_input e) fm2 = Ok fm3 /\
         get_field fm3 i = Some (mkField (f_type fld2) "" (f_instructions fld2)
                                         (PStr (f_type fld)) (f_options fld2))).
Proof.
  intros Hn Hc Hh. unfold make_input.
  apply String.eqb_neq in Hh. rewrite Hh, Hc.
  assert (Hg : get_field (modify_field i (set_value (PStr (f_type fld))) fm) i =
               Some (set_value (PStr (f_type fld)) fld)).
  { rewrite get_field_modify_same. unfold get_field. rewrite Hn. reflexivity. }
  rewrite Hg. simpl.
  eexists; eexists; split; [reflexivity|]. split; [exact Hg|].
  split; [reflexivity|]. split; [reflexivity|].
  intros fm2 fld2 Hg2. eexists. split; [reflexivity|]. simpl.
  rewrite !get_field_modify_same, Hg2. reflexivity.
Qed.

Lemma C9_unknown_type_text_witness :
  exists fm1 e, make_input form_custom 0 (mk_field "custom-x" PNone []) = Ok (fm1, Some e) /\
    w_state (e_input e) = TextSingleWin "custom-x" 8 /\
    exists fm3, widget_reply (e_input e) fm1 = Ok fm3 /\
      get_field fm3 0 = Some (mkField "custom-x" "" "" (PStr "custom-x") []).
Proof.
  destruct (C9_unknown_type_text form_custom 0 "x" (mk_field "custom-x" PNone []) eq_refl
              eq_refl ltac:(discriminate)) as [fm1 [e [H1 [H2 [H3 [_ H5]]]]]].
  exists fm1, e. split; [exact H1|]. split; [exact H3|].
  destruct (H5 fm1 (set_value (PStr "custom-x") (mk_field "custom-x" PNone [])) H2)
    as [fm3 [G1 G2]].
  exists fm3. split; [exact G1|exact G2].
Defined.

(** ** Construction and the reply pass *)

Lemma map_update_nth {A B : Type} (h : A -> B) (l : list A) (i : nat) (x : A) :
  map h (update_nth i x l) = update_nth i (h x) (map h l).
Proof. revert i; induction l as [|y l IH]; intros [|i]; simpl; f_equal; auto. Qed.

Lemma update_nth_same {A : Type} (l : list A) (i : nat) (y : A) :
  nth_error l i = Some y -> update_nth i y l = l.
Proof.
  revert i; induction l as [|z l IH]; intros [|i] H; simpl in *; try discriminate.
  - injection H as ->. reflexivity.
  - f_equal. auto.
Qed.

Lemma modify_field_kinds (fm : form) (i : nat) (g : field -> field) :
  (forall f, f_type (g f) = f_type f) -> kinds (modify_field i g fm) = kinds fm.
Proof.
  intros Hg. unfold kinds, modify_field.
  destruct (nth_error (form_fields fm) i) as [[name fld]|] eqn:E; [|reflexivity].
  simpl. rewrite map_update_nth. simpl. rewrite Hg.
  apply update_nth_same. rewrite nth_error_map, E. reflexivity.
Qed.

Lemma modify_field_other (fm : form) (i j : nat) (g : field -> field) :
  j <> i -> nth_error (form_fields (modify_field i g fm)) j = nth_error (form_fields fm) j.
Proof.
  intros Hne. unfold modify_field.
  destruct (nth_error (form_fields fm) i) as [[name fld]|]; [|reflexivity].
  simpl. rewrite nth_error_update_nth. apply Nat.eqb_neq in Hne. rewrite Hne. reflexivity.
Qed.

Lemma widget_reply_frame (w : widget) (fm fm' : form) :
  widget_reply w fm = Ok fm' ->
  kinds fm' = kinds fm /\
  (forall j, j <> w_field w -> nth_error (form_fields fm') j = nth_error (form_fields fm) j).
Proof.
  unfold widget_reply.
  destruct (w_state w) as [|lk v|opts p|opts p|t p|t p]; intros H;
    try discriminate;
    try (destruct (lookup opts p) as [o|]; cbn [res_bind] in H; [|discriminate]);
    injection H as <-;
    (split; [rewrite !modify_field_kinds; reflexivity|
             intros j Hj; rewrite !modify_field_other by exact Hj; reflexivity]).
Qed.

Lemma widget_reply_ok (w : widget) (fm : form) :
  is_dummy w = false -> pos_ok w -> exists fm', widget_reply w fm = Ok fm'.
Proof.
  unfold is_dummy, pos_ok, widget_reply.
  destruct (w_state w) as [|lk v|opts p|opts p|t p|t p]; intros Hd Hp;
    try discriminate; try (eexists; reflexivity).
  destruct (lookup_in_range opts p (Hp opts p eq_refl)) as [o [_ Hl]].
  rewrite Hl. eexists; reflexivity.
Qed.

Lemma reply_inputs_spec (es : list entry) (k : nat) (fm : form) (evs : list event) (fm' : form) :
  reply_inputs es k fm = Ok (evs, fm') ->
  evs = map EvWidgetReply (nondummy_indices es k) /\
  kinds fm' = kinds fm /\
  (forall j, (forall e, In e es -> entry_is_dummy e = false -> w_field (e_input e) <> j) ->
     nth_error (form_fields fm') j = nth_error (form_fields fm) j).
Proof.
  revert k fm evs fm'; induction es as [|e es IH]; intros k fm evs fm' H; simpl in H.
  - injection H as <- <-. repeat split; auto.
  - destruct (entry_is_dummy e) eqn:Hd.
    + destruct (IH _ _ _ _ H) as [H1 [H2 H3]]. simpl. rewrite Hd.
      split; [exact H1|]. split; [exact H2|].
      intros j Hj. apply H3. intros e' He'. apply Hj. right. exact He'.
    + destruct (widget_reply (e_input e) fm) as [fm1|] eqn:Hw; cbn [res_bind] in H;
        [|discriminate].
      destruct (reply_inputs es (S k) fm1) as [[evs1 fm2]|] eqn:Hr; cbn [res_bind] in H;
        [|discriminate].
      injection H as <- <-. simpl.
      destruct (IH _ _ _ _ Hr) as [H1 [H2 H3]].
      destruct (widget_reply_frame _ _ _ Hw) as [G1 G2].
      simpl. rewrite Hd. repeat split.
      * rewrite H1. reflexivity.
      * rewrite H2, G1. reflexivity.
      * intros j Hj. rewrite H3, G2; [reflexivity| |].
        -- intros Heq. apply (Hj e); [left; reflexivity|exact Hd|symmetry; exact Heq].
        -- intros e' He'. apply Hj. right. exact He'.
Qed.

Lemma reply_inputs_ok (es : list entry) (k : nat) (fm : form) :
  Forall (fun e => pos_ok (e_input e)) es -> exists r, reply_inputs es k fm = Ok r.
Proof.
  revert k fm; induction es as [|e es IH]; intros k fm Hp; simpl.
  - eexists; reflexivity.
  - inversion Hp as [|? ? Hpe Hps]; subst.
    destruct (entry_is_dummy e) eqn:Hd; [apply IH; exact Hps|].
    destruct (widget_reply_ok (e_input e) fm Hd Hpe) as [fm1 Hw]. rewrite Hw.
    cbn [res_bind]. destruct (IH (S k) fm1 Hps) as [r Hr]. rewrite Hr.
    eexists; reflexivity.
Qed.

Lemma input_classes_list_single (ty : string) :
  input_classes ty = Some CListSingle -> ty = "list-single".
Proof.
  unfold input_classes.
  destruct (String.eqb_spec ty "boolean"); [discriminate|].
  destruct (String.eqb_spec ty "fixed"); [discriminate|].
  destruct (String.eqb_spec ty "jid-single"); [discriminate|].
  destruct (String.eqb_spec ty "list-multi"); [discriminate|].
  destruct (String.eqb_spec ty "list-single"); [auto|].
  destruct (String.eqb_spec ty "text-private"); [discriminate|].
  destruct (String.eqb_spec ty "text-single"); discriminate.
Qed.

Lemma list_single_pos_bound (v : pyval) (opts : list option_) (i acc : nat) :
  list_single_pos v opts i acc = acc \/
  (i <= list_single_pos v opts i acc < i + length opts).
Proof.
  revert i acc; induction opts as [|o opts IH]; intros i acc; simpl; [auto|].
  destruct (IH (S i) (if py_eq_str v (o_value o) then i else acc)) as [H|H].
  - rewrite H. destruct (py_eq_str v (o_value o)); [right; lia|left; reflexivity].
  - right. lia.
Qed.

Lemma construct_spec (c : input_class) (i : nat) (fld : field) (w : widget) :
  construct c i fld = Ok w ->
  (c = CListSingle -> f_options fld <> []) ->
  w_field w = i /\ pos_ok w.
Proof.
  intros H Hc. unfold pos_ok.
  destruct c; simpl in H.
  - injection H as <-. split; [reflexivity|]. intros opts pos Hs; discriminate.
  - injection H as <-. split; [reflexivity|]. intros opts pos Hs; discriminate.
  - injection H as <-. split; [reflexivity|]. intros opts pos Hs; discriminate.
  - destruct (res_map _ (f_options fld)); cbn [res_bind] in H; [|discriminate].
    injection H as <-. split; [reflexivity|]. intros opts pos Hs; discriminate.
  - injection H as <-. split; [reflexivity|]. intros opts pos Hs.
    simpl in Hs. injection Hs as <- <-.
    specialize (Hc eq_refl).
    destruct (f_options fld) as [|o os] eqn:E; [congruence|].
    destruct (list_single_pos_bound (f_value fld) (o :: os) 0 0) as [H|H];
      [rewrite H; simpl; lia|lia].
  - injection H as <-. split; [reflexivity|]. intros opts pos Hs; discriminate.
Qed.

Lemma make_input_spec (fm fm1 : form) (i : nat) (name : string) (fld : field)
    (oe : option entry) :
  nth_error (form_fields fm) i = Some (name, fld) ->
  (f_type fld = "list-single" -> f_options fld <> []) ->
  make_input fm i fld = Ok (fm1, oe) ->
  kinds fm1 = kinds fm /\
  (forall j, j <> i -> nth_error (form_fields fm1) j = nth_error (form_fields fm) j) /\
  (f_type fld = "hidden" -> fm1 = fm) /\
  (forall e, oe = Some e ->
     w_field (e_input e) = i /\ f_type fld <> "hidden" /\ pos_ok (e_input e)).
Proof.
  intros Hn Hwf H. unfold make_input in H.
  destruct (String.eqb_spec (f_type fld) "hidden") as [Hh|Hh].
  - injection H as <- <-. split; [reflexivity|]. split; [intros; reflexivity|].
    split; [intros; reflexivity|]. intros ? He; discriminate.
  - assert (Hg0 : get_field fm i = Some fld) by (unfold get_field; rewrite Hn; reflexivity).
    destruct (input_classes (f_type fld)) as [c|] eqn:Hc.
    + rewrite Hg0 in H.
      destruct (construct c i fld) as [w|] eqn:Hw; cbn [res_bind] in H; [|discriminate].
      injection H as <- <-.
      destruct (construct_spec c i fld w Hw) as [H1 H2].
      { intros ->. apply Hwf. apply input_classes_list_single. exact Hc. }
      split; [reflexivity|]. split; [intros; reflexivity|].
      split; [intros; contradiction|].
      intros ? He. injection He as <-. simpl.
      split; [first [exact H1|reflexivity]|]. split; [exact Hh|first [exact H2|auto]].
    + rewrite get_field_modify_same, Hg0 in H. simpl in H.
      injection H as <- <-.
      split; [apply modify_field_kinds; reflexivity|].
      split; [intros j Hj; apply modify_field_other; exact Hj|].
      split; [intros; contradiction|].
      intros ? He. injection He as <-. simpl.
      split; [reflexivity|]. split; [exact Hh|].
      intros opts pos Hs. discriminate Hs.
Qed.

Lemma build_inputs_spec (flds : list (string * field)) :
  forall fm i fm' es,
  (forall k, nth_error (form_fields fm) (i + k) = nth_error flds k) ->
  Forall (fun p => f_type (snd p) = "list-single" -> f_options (snd p) <> []) flds ->
  build_inputs fm flds i = Ok (fm', es) ->
  kinds fm' = kinds fm /\
  (forall j p, nth_error (form_fields fm) j = Some p ->
     (j < i \/ f_type (snd p) = "hidden") -> nth_error (form_fields fm') j = Some p) /\
  Forall (fun e => exists name ty, nth_error (kinds fm) (w_field (e_input e)) = Some (name, ty)
                                  /\ ty <> "hidden") es /\
  Forall (fun e => pos_ok (e_input e)) es.
Proof.
  induction flds as [|[name fld] flds IH]; intros fm i fm' es Hag Hwf H; simpl in H.
  - injection H as <- <-. split; [reflexivity|]. split; [intros j p Hp _; exact Hp|].
    split; constructor.
  - destruct (make_input fm i fld) as [[fm1 oe]|] eqn:Hm; cbn [res_bind] in H;
      [|discriminate].
    destruct (build_inputs fm1 flds (S i)) as [[fm2 es2]|] eqn:Hb; cbn [res_bind] in H;
      [|discriminate].
    injection H as <- <-.
    assert (Hn : nth_error (form_fields fm) i = Some (name, fld))
      by (rewrite <- (Nat.add_0_r i), Hag; reflexivity).
    inversion Hwf as [|? ? Hwf0 Hwfs]; subst.
    destruct (make_input_spec fm fm1 i name fld oe Hn Hwf0 Hm) as [M1 [M2 [M3 M4]]].
    destruct (IH fm1 (S i) fm2 es2) as [I1 [I2 [I3 I4]]]; auto.
    { intros k. rewrite M2 by lia. replace (S i + k) with (i + S k) by lia.
      rewrite Hag. reflexivity. }
    split; [rewrite I1, M1; reflexivity|].
    split.
    + intros j p Hp Hj. apply I2.
      * destruct (Nat.eq_dec j i) as [-> | Hne].
        -- rewrite Hn in Hp. injection Hp as <-. destruct Hj as [Hj|Hj]; [lia|].
           rewrite (M3 Hj). exact Hn.
        -- rewrite M2 by exact Hne. exact Hp.
      * destruct Hj as [Hj|Hj]; [left; lia|right; exact Hj].
    + rewrite M1 in I3.
      assert (Hk : nth_error (kinds fm) i = Some (name, f_type fld))
        by (unfold kinds; rewrite nth_error_map, Hn; reflexivity).
      destruct oe as [e|]; [|split; assumption].
      destruct (M4 e eq_refl) as [E1 [E2 E3]].
      split; constructor; auto.
      exists name, (f_type fld). rewrite E1. split; [exact Hk|exact E2].
Qed.

(** ** C5: submitting *)

(** C5: for a field set satisfying the data-model invariant on list-single
    options, and the session built from it, submit runs sleekxmpp's
    [Form.reply] (which leaves the fields alone), then the reply of every
    widget that is not inert, in focus order, then clears the title and
    then the instructions, then calls [on_send] with the resulting form.
    No widget stands for a hidden field, and hidden fields keep their
    value (and label and options) through the whole session. *)
Theorem C5_submit_order (form_reply : form -> form) (fm : form) (s : session) :
  (forall f, form_fields (form_reply f) = form_fields f) ->
  list_single_ok fm = true ->
  session_init fm = Ok s ->
  Forall (fun e => exists name fld, nth_error (form_fields fm) (w_field (e_input e)) = Some (name, fld)
                                   /\ f_type fld <> "hidden") (inputs (s_win s)) /\
  exists s', on_send form_reply s =
      Ok (s', (EvFormReply :: map EvWidgetReply (nondummy_indices (inputs (s_win s)) 0)
               ++ [EvClearTitle; EvClearInstructions; EvOnSend (s_form s')])%list) /\
    form_title (s_form s') = "" /\ form_instructions (s_form s') = "" /\
    (forall j name fld, nth_error (form_fields fm) j = Some (name, fld) ->
       f_type fld = "hidden" -> nth_error (form_fields (s_form s')) j = Some (name, fld)).
Proof.
  intros Hfr Hok Hs.
  unfold session_init, formwin_init in Hs.
  destruct (build_inputs fm (form_fields fm) 0) as [[fm1 es]|] eqn:Hb; cbn [res_bind] in Hs;
    [|discriminate].
  injection Hs as <-. simpl.
  assert (Hwf : Forall (fun p => f_type (snd p) = "list-single" -> f_options (snd p) <> [])
                       (form_fields fm)).
  { apply Forall_forall. intros p Hp Ht.
    unfold list_single_ok in Hok. rewrite forallb_forall in Hok.
    specialize (Hok p Hp). rewrite Ht in Hok. simpl in Hok.
    destruct (f_options (snd p)); [discriminate|congruence]. }
  destruct (build_inputs_spec (form_fields fm) fm 0 fm1 es (fun k => eq_refl) Hwf Hb)
    as [B1 [B2 [B3 B4]]].
  split.
  { apply Forall_forall. intros e He. rewrite Forall_forall in B3.
    destruct (B3 e He) as [name [ty [Hk Hty]]].
    unfold kinds in Hk. rewrite nth_error_map in Hk.
    destruct (nth_error (form_fields fm) (w_field (e_input e))) as [[n f]|] eqn:E;
      [|discriminate].
    simpl in Hk. injection Hk as <- <-. exists n, f. auto. }
  destruct (reply_inputs_ok es 0 (form_reply fm1) B4) as [[evs fm2] Hr].
  destruct (reply_inputs_spec es 0 (form_reply fm1) evs fm2 Hr) as [R1 [R2 R3]].
  unfold on_send, formwin_reply. simpl. rewrite Hr. cbn [res_bind].
  exists (mkSession (mkForm "" "" (form_fields fm2)) (mkFormWin es 0)).
  split; [rewrite R1; simpl; rewrite <- app_assoc; reflexivity|].
  split; [reflexivity|]. split; [reflexivity|].
  intros j name fld Hj Hh. simpl.
  rewrite R3.
  - rewrite Hfr. apply (B2 j (name, fld) Hj). right. exact Hh.
  - intros e He _ Heq. rewrite Forall_forall in B3.
    destruct (B3 e He) as [n [ty [Hk Hty]]].
    rewrite Heq in Hk. unfold kinds in Hk. rewrite nth_error_map, Hj in Hk.
    simpl in Hk. injection Hk as _ <-. contradiction.
Qed.

Lemma C5_submit_order_witness :
  exists s, session_init form_hidden_fixed_text = Ok s /\
  exists s', on_send (fun f => f) s = Ok (s', (EvFormReply :: map EvWidgetReply
              (nondummy_indices (inputs (s_win s)) 0)
               ++ [EvClearTitle; EvClearInstructions; EvOnSend (s_form s')])%list).
Proof.
  eexists; split; [reflexivity|].
  destruct (C5_submit_order (fun f => f) form_hidden_fixed_text _ (fun _ => eq_refl)
              eq_refl eq_refl) as [_ [s' [H1 _]]].
  exists s'. exact H1.
Defined.

(** ** Further properties of the widgets *)

Lemma run_keys_cons (w : widget) (k : string) (ks : list string) :
  run_keys w (k :: ks) = (let* w' := call_do_command w [k] in run_keys w' ks).
Proof. reflexivity. Qed.

Lemma refresh_single_in_range (f c : nat) (opts : list option_) (pos : nat) :
  pos < length opts -> refresh (mkWidget f c (ListSingleWin opts pos)) = Ok tt.
Proof.
  intros Hp. unfold refresh. simpl.
  destruct (lookup_in_range opts pos Hp) as [o [_ Hl]]. rewrite Hl. reflexivity.
Qed.

Lemma refresh_multi_in_range (f c : nat) (opts : list (option_ * bool)) (pos : nat) :
  pos < length opts -> refresh (mkWidget f c (ListMultiWin opts pos)) = Ok tt.
Proof.
  intros Hp. unfold refresh. simpl.
  destruct (lookup_in_range opts pos Hp) as [o [_ Hl]]. rewrite Hl. reflexivity.
Qed.

Lemma update_nth_twice {A : Type} (l : list A) (i : nat) (x y : A) :
  update_nth i y (update_nth i x l) = update_nth i y l.
Proof. revert i; induction l as [|z l IH]; intros [|i]; simpl; f_equal; auto. Qed.

Lemma clamp_left_in_range (pos n : nat) :
  pos < n -> (if 0 <? pos then pos - 1 else pos) < n.
Proof. intros H; destruct (Nat.ltb_spec 0 pos); lia. Qed.

Lemma clamp_right_in_range (pos n : nat) :
  pos < n -> (if pos <? n - 1 then pos + 1 else pos) < n.
Proof. intros H; destruct (Nat.ltb_spec pos (n - 1)); lia. Qed.

(** A [BooleanWin] accepts every key sequence: each arrow key negates the
    value, other keys leave it, so the value ends negated iff the number of
    arrow keys is odd. *)
Theorem boolean_keys_parity (keys : list string) :
  forall f c lk v,
  exists lk', run_keys (mkWidget f c (BooleanWin lk v)) keys =
    Ok (mkWidget f c (BooleanWin lk'
          (if Nat.even (length (filter is_arrow keys)) then v else negb v))).
Proof.
  induction keys as [|k ks IH]; intros f c lk v.
  - exists lk. reflexivity.
  - rewrite run_keys_cons. unfold call_do_command, do_command_key.
    cbn [w_state]. unfold with_state. cbn [w_field w_color refresh w_state res_bind].
    cbn [filter].
    change (String.eqb k "KEY_LEFT" || String.eqb k "KEY_RIGHT") with (is_arrow k).
    destruct (is_arrow k);
      cbn [res_bind refresh w_state length].
    + destruct (IH f c k (negb v)) as [lk' H]. exists lk'. rewrite H.
      rewrite Nat.even_succ, <- Nat.negb_even.
      destruct (Nat.even (length (filter is_arrow ks))); destruct v; reflexivity.
    + exact (IH f c lk v).
Qed.

Lemma list_single_keys_stay (keys : list string) :
  forall f c opts pos, pos < length opts ->
  exists pos', run_keys (mkWidget f c (ListSingleWin opts pos)) keys =
    Ok (mkWidget f c (ListSingleWin opts pos')) /\ pos' < length opts.
Proof.
  induction keys as [|k ks IH]; intros f c opts pos Hp.
  - exists pos. auto.
  - rewrite run_keys_cons. unfold call_do_command, do_command_key.
    cbn [w_state]. unfold with_state. cbn [w_field w_color].
    destruct (String.eqb k "KEY_LEFT");
      [|destruct (String.eqb k "KEY_RIGHT")].
    + pose proof (clamp_left_in_range pos (length opts) Hp) as Hp'.
      rewrite (refresh_single_in_range f c opts _ Hp'). cbn [res_bind].
      exact (IH f c opts _ Hp').
    + pose proof (clamp_right_in_range pos (length opts) Hp) as Hp'.
      rewrite (refresh_single_in_range f c opts _ Hp'). cbn [res_bind].
      exact (IH f c opts _ Hp').
    + cbn [res_bind]. exact (IH f c opts pos Hp).
Qed.

(** A [ListSingleWin] whose cursor is on an option accepts every key
    sequence without raising; the cursor stays on an option (left and
    right clamp at both ends) and the options never change. *)
Theorem list_single_keys_in_range (keys : list string) :
  forall f c opts pos, pos < length opts ->
  exists pos', run_keys (mkWidget f c (ListSingleWin opts pos)) keys =
    Ok (mkWidget f c (ListSingleWin opts pos')) /\ pos' < length opts.
Proof. exact (list_single_keys_stay keys). Qed.

Lemma list_single_keys_in_range_witness :
  exists pos', run_keys (mkWidget 0 14 (ListSingleWin options_ABC 0))
                 ["KEY_RIGHT"; "KEY_RIGHT"; "KEY_RIGHT"; " "] =
    Ok (mkWidget 0 14 (ListSingleWin options_ABC pos')) /\ pos' < length options_ABC.
Proof.
  exact (list_single_keys_in_range ["KEY_RIGHT"; "KEY_RIGHT"; "KEY_RIGHT"; " "]
           0 14 options_ABC 0 ltac:(simpl; lia)).
Defined.

Lemma space_flip_shape (opts : list (option_ * bool)) (pos : nat) (o : option_ * bool) :
  nth_error opts pos = Some o ->
  map fst (update_nth pos (fst o, negb (snd o)) opts) = map fst opts /\
  length (update_nth pos (fst o, negb (snd o)) opts) = length opts.
Proof.
  intros Ho. split; [|apply length_update_nth].
  rewrite map_update_nth. simpl. apply update_nth_same.
  rewrite nth_error_map, Ho. reflexivity.
Qed.

(** A [ListMultiWin] whose cursor is on an option accepts every key
    sequence without raising; the cursor stays on an option and the
    options keep their order and number (space only flips flags). *)
Theorem list_multi_keys_in_range (keys : list string) :
  forall f c opts pos, pos < length opts ->
  exists opts' pos', run_keys (mkWidget f c (ListMultiWin opts pos)) keys =
    Ok (mkWidget f c (ListMultiWin opts' pos')) /\ pos' < length opts' /\
    map fst opts' = map fst opts.
Proof.
  induction keys as [|k ks IH]; intros f c opts pos Hp.
  - exists opts, pos. auto.
  - rewrite run_keys_cons. unfold call_do_command, do_command_key.
    cbn [w_state]. unfold with_state. cbn [w_field w_color].
    destruct (String.eqb k "KEY_LEFT");
      [|destruct (String.eqb k "KEY_RIGHT"); [|destruct (String.eqb k " ")]].
    + pose proof (clamp_left_in_range pos (length opts) Hp) as Hp'.
      rewrite (refresh_multi_in_range f c opts _ Hp'). cbn [res_bind].
      exact (IH f c opts _ Hp').
    + pose proof (clamp_right_in_range pos (length opts) Hp) as Hp'.
      rewrite (refresh_multi_in_range f c opts _ Hp'). cbn [res_bind].
      exact (IH f c opts _ Hp').
    + destruct (lookup_in_range opts pos Hp) as [o [Ho Hl]]. rewrite Hl. cbn [res_bind].
      destruct (space_flip_shape opts pos o Ho) as [Hfst Hlen].
      assert (Hp1 : pos < length (update_nth pos (fst o, negb (snd o)) opts)) by lia.
      rewrite (refresh_multi_in_range f c _ _ Hp1). cbn [res_bind].
      destruct (IH f c _ pos Hp1) as [opts' [pos' [H1 [H2 H3]]]].
      exists opts', pos'. rewrite H3, Hfst. auto.
    + cbn [res_bind]. exact (IH f c opts pos Hp).
Qed.

Lemma list_multi_keys_in_range_witness :
  exists opts' pos',
    run_keys (mkWidget 0 14 (ListMultiWin (combine options_ABC [false; false; false]) 0))
      ["KEY_LEFT"; " "; "KEY_RIGHT"; " "] =
    Ok (mkWidget 0 14 (ListMultiWin opts' pos')) /\ pos' < length opts' /\
    map fst opts' = map fst (combine options_ABC [false; false; false]).
Proof.
  exact (list_multi_keys_in_range ["KEY_LEFT"; " "; "KEY_RIGHT"; " "] 0 14
           (combine options_ABC [false; false; false]) 0 ltac:(simpl; lia)).
Defined.

(** In a [ListMultiWin] with the cursor on an option, space flips the
    flag of that option only, and a second space restores the widget. *)
Theorem list_multi_space_involutive (f c : nat) (opts : list (option_ * bool)) (pos : nat) :
  pos < length opts ->
  exists o, nth_error opts pos = Some o /\
    call_do_command (mkWidget f c (ListMultiWin opts pos)) [" "] =
      Ok (mkWidget f c (ListMultiWin (update_nth pos (fst o, negb (snd o)) opts) pos)) /\
    call_do_command (mkWidget f c (ListMultiWin (update_nth pos (fst o, negb (snd o)) opts) pos)) [" "] =
      Ok (mkWidget f c (ListMultiWin opts pos)).
Proof.
  intros Hp. destruct (lookup_in_range opts pos Hp) as [o [Ho Hl]].
  destruct (space_flip_shape opts pos o Ho) as [_ Hlen].
  exists o. split; [exact Ho|].
  unfold call_do_command, do_command_key. cbn [w_state]. unfold with_state.
  cbn [w_field w_color]. simpl String.eqb. cbv iota.
  rewrite Hl. cbn [res_bind].
  assert (Hp1 : pos < length (update_nth pos (fst o, negb (snd o)) opts)) by lia.
  rewrite (refresh_multi_in_range f c _ pos Hp1). cbn [res_bind].
  split; [reflexivity|].
  assert (Hn : lookup (update_nth pos (fst o, negb (snd o)) opts) pos =
               Ok (fst o, negb (snd o))).
  { unfold lookup. rewrite nth_error_update_nth, Nat.eqb_refl, Ho. reflexivity. }
  rewrite Hn. cbn [res_bind fst snd].
  rewrite negb_involutive, update_nth_twice.
  replace (fst o, snd o) with o by (destruct o; reflexivity).
  rewrite (update_nth_same opts pos o Ho).
  rewrite (refresh_multi_in_range f c opts pos Hp). reflexivity.
Qed.

Lemma list_multi_space_involutive_witness :
  exists o, nth_error (combine options_ABC [true; false; true]) 1 = Some o /\
    call_do_command (mkWidget 0 14 (ListMultiWin (combine options_ABC [true; false; true]) 1)) [" "] =
      Ok (mkWidget 0 14 (ListMultiWin (update_nth 1 (fst o, negb (snd o))
                                        (combine options_ABC [true; false; true])) 1)) /\
    call_do_command (mkWidget 0 14 (ListMultiWin (update_nth 1 (fst o, negb (snd o))
                                        (combine options_ABC [true; false; true])) 1)) [" "] =
      Ok (mkWidget 0 14 (ListMultiWin (combine options_ABC [true; false; true]) 1)).
Proof.
  exact (list_multi_space_involutive 0 14 (combine options_ABC [true; false; true]) 1
           ltac:(simpl; lia)).
Defined.

(** ** Further properties of construction *)

Lemma res_map_ok {A B : Type} (g : A -> B) (f : A -> res B) (l : list A) :
  (forall a, In a l -> f a = Ok (g a)) -> res_map f l = Ok (map g l).
Proof.
  induction l as [|a l IH]; intros H; simpl; [reflexivity|].
  rewrite (H a (or_introl eq_refl)). cbn [res_bind].
  rewrite IH by (intros b Hb; apply H; right; exact Hb). reflexivity.
Qed.

(** [ListMultiWin(field)] on a field whose value is a list of strings:
    the widget has one entry per option, in order, checked exactly when
    the option's value is among the field's values, and its cursor on
    the first option. *)
Theorem list_multi_init_checks (i : nat) (fld : field) (l : list string) :
  f_value fld = PList l ->
  exists opts, construct CListMulti i fld = Ok (mkWidget i 14 (ListMultiWin opts 0)) /\
    map fst opts = f_options fld /\
    forall o b, In (o, b) opts -> (b = true <-> In (o_value o) l).
Proof.
  intros Hv.
  exists (map (fun o => (o, existsb (String.eqb (o_value o)) l)) (f_options fld)).
  split; [|split].
  - unfold construct. rewrite Hv.
    rewrite (res_map_ok (fun o => (o, existsb (String.eqb (o_value o)) l))).
    + reflexivity.
    + intros a _. reflexivity.
  - rewrite map_map. simpl. apply map_id.
  - intros o b Hin. apply in_map_iff in Hin. destruct Hin as [o' [Heq _]].
    injection Heq as -> <-. rewrite existsb_exists. split.
    + intros [x [Hx Hxe]]. apply String.eqb_eq in Hxe. subst x. exact Hx.
    + intros Hx. exists (o_value o). split; [exact Hx|apply String.eqb_refl].
Qed.

Lemma list_multi_init_checks_witness :
  exists opts, construct CListMulti 0 (mk_field "list-multi" (PList ["B"]) options_ABC) =
      Ok (mkWidget 0 14 (ListMultiWin opts 0)) /\
    map fst opts = options_ABC /\
    forall o b, In (o, b) opts -> (b = true <-> In (o_value o) ["B"]).
Proof.
  exact (list_multi_init_checks
           0 (mk_field "list-multi" (PList ["B"]) options_ABC) ["B"] eq_refl).
Defined.

Lemma list_single_pos_spec (v : pyval) (opts : list option_) :
  forall i acc,
  ((forall k o, nth_error opts k = Some o -> py_eq_str v (o_value o) = false) /\
   list_single_pos v opts i acc = acc) \/
  (exists k o, nth_error opts k = Some o /\ py_eq_str v (o_value o) = true /\
     list_single_pos v opts i acc = i + k /\
     forall k' o', k < k' -> nth_error opts k' = Some o' -> py_eq_str v (o_value o') = false).
Proof.
  induction opts as [|o opts IH]; intros i acc; simpl.
  - left. split; [intros [|k] o H; discriminate|reflexivity].
  - destruct (IH (S i) (if py_eq_str v (o_value o) then i else acc))
      as [[Hn Hr]|[k [o' [Hk [Hm [Hr Hl]]]]]].
    + rewrite Hr. destruct (py_eq_str v (o_value o)) eqn:Ho.
      * right. exists 0, o. split; [reflexivity|]. split; [exact Ho|].
        split; [lia|]. intros [|k'] o' Hk' H'; [lia|]. exact (Hn k' o' H').
      * left. split; [|reflexivity]. intros [|k] o' H'; simpl in H'.
        -- injection H' as <-. exact Ho.
        -- exact (Hn k o' H').
    + right. exists (S k), o'. split; [exact Hk|]. split; [exact Hm|].
      split; [rewrite Hr; lia|].
      intros [|k'] o'' Hk' H'; [lia|]. apply (Hl k'); [lia|exact H'].
Qed.

(** [ListSingleWin(field)]: the options are the field's, and the cursor
    starts on the last option whose value equals the field's value, or on
    the first option when none does. *)
Theorem list_single_init_cursor (i : nat) (fld : field) :
  exists pos, construct CListSingle i fld =
      Ok (mkWidget i 14 (ListSingleWin (f_options fld) pos)) /\
    (((forall k o, nth_error (f_options fld) k = Some o ->
        py_eq_str (f_value fld) (o_value o) = false) /\ pos = 0) \/
     (exists o, nth_error (f_options fld) pos = Some o /\
        py_eq_str (f_value fld) (o_value o) = true /\
        forall k o', pos < k -> nth_error (f_options fld) k = Some o' ->
          py_eq_str (f_value fld) (o_value o') = false)).
Proof.
  exists (list_single_pos (f_value fld) (f_options fld) 0 0). split; [reflexivity|].
  destruct (list_single_pos_spec (f_value fld) (f_options fld) 0 0)
    as [[Hn Hr]|[k [o [Hk [Hm [Hr Hl]]]]]].
  - left. split; assumption.
  - right. rewrite Hr. simpl. exists o. auto.
Qed.

Lemma nth_error_app_length {A : Type} (pre rest : list A) (y : A) :
  nth_error (pre ++ y :: rest)%list (length pre) = Some y.
Proof. induction pre as [|z pre IH]; simpl; auto. Qed.

Lemma update_nth_app_length {A : Type} (pre rest : list A) (x y : A) :
  update_nth (length pre) x (pre ++ y :: rest)%list = (pre ++ x :: rest)%list.
Proof. induction pre as [|z pre IH]; simpl; [reflexivity|rewrite IH; reflexivity]. Qed.

Lemma modify_field_app (fm : form) (pre rest : list (string * field)) (name : string)
    (fld : field) (g : field -> field) :
  form_fields fm = (pre ++ (name, fld) :: rest)%list ->
  modify_field (length pre) g fm =
    mkForm (form_title fm) (form_instructions fm) (pre ++ (name, g fld) :: rest)%list.
Proof.
  intros H. unfold modify_field. rewrite H, nth_error_app_length.
  rewrite update_nth_app_length. reflexivity.
Qed.

Lemma get_field_app (fm : form) (pre rest : list (string * field)) (name : string)
    (fld : field) :
  form_fields fm = (pre ++ (name, fld) :: rest)%list -> get_field fm (length pre) = Some fld.
Proof. intros H. unfold get_field. rewrite H, nth_error_app_length. reflexivity. Qed.

Lemma input_classes_dummy (t : string) (c : input_class) :
  input_classes t = Some c ->
  match c with CDummy => true | _ => false end = String.eqb t "fixed".
Proof.
  unfold input_classes.
  destruct (String.eqb_spec t "boolean") as [->|]; [intros H; injection H as <-; reflexivity|].
  destruct (String.eqb_spec t "fixed") as [->|]; [intros H; injection H as <-; reflexivity|].
  destruct (String.eqb_spec t "jid-single") as [->|]; [intros H; injection H as <-; reflexivity|].
  destruct (String.eqb_spec t "list-multi") as [->|]; [intros H; injection H as <-; reflexivity|].
  destruct (String.eqb_spec t "list-single") as [->|]; [intros H; injection H as <-; reflexivity|].
  destruct (String.eqb_spec t "text-private") as [->|]; [intros H; injection H as <-; reflexivity|].
  destruct (String.eqb_spec t "text-single") as [->|]; [intros H; injection H as <-; reflexivity|].
  discriminate.
Qed.

Lemma input_classes_none (t : string) :
  input_classes t = None -> String.eqb t "fixed" = false.
Proof.
  intros H. destruct (String.eqb_spec t "fixed") as [->|]; [discriminate|reflexivity].
Qed.

Lemma construct_shape (c : input_class) (i : nat) (fld : field) (w : widget) :
  construct c i fld = Ok w ->
  w_field w = i /\ is_dummy w = match c with CDummy => true | _ => false end.
Proof.
  intros H. destruct c; simpl in H;
    try (destruct (res_map _ (f_options fld)); cbn [res_bind] in H; [|discriminate]);
    injection H as <-; split; reflexivity.
Qed.

Lemma make_input_init (fm fm1 : form) (pre rest : list (string * field)) (name : string)
    (fld : field) (oe : option entry) :
  form_fields fm = (pre ++ (name, fld) :: rest)%list ->
  make_input fm (length pre) fld = Ok (fm1, oe) ->
  form_title fm1 = form_title fm /\ form_instructions fm1 = form_instructions fm /\
  form_fields fm1 = (pre ++ (name, init_field fld) :: rest)%list /\
  map entry_summary (match oe with Some e => [e] | None => [] end) =
    visible_summary [(name, fld)] (length pre).
Proof.
  intros Hf H. unfold make_input in H. unfold init_field, visible_summary.
  destruct (String.eqb (f_type fld) "hidden") eqn:Hh.
  - injection H as <- <-. auto.
  - destruct (input_classes (f_type fld)) as [c|] eqn:Hc.
    + rewrite (get_field_app fm pre rest name fld Hf) in H.
      destruct (construct c (length pre) fld) as [w|] eqn:Hw; cbn [res_bind] in H;
        [|discriminate].
      injection H as <- <-.
      destruct (construct_shape c (length pre) fld w Hw) as [W1 W2].
      split; [reflexivity|]. split; [reflexivity|]. split; [exact Hf|].
      unfold entry_summary; simpl. rewrite W1, W2, (input_classes_dummy _ _ Hc). reflexivity.
    + rewrite (modify_field_app fm pre rest name fld _ Hf) in H.
      rewrite (get_field_app (mkForm (form_title fm) (form_instructions fm)
                 (pre ++ (name, set_value (PStr (f_type fld)) fld) :: rest)%list) pre rest name
                 _ eq_refl) in H.
      cbn [res_bind construct] in H. injection H as <- <-.
      pose proof (input_classes_none _ Hc) as Hnf.
      simpl. rewrite Hnf. auto.
Qed.

Lemma build_inputs_init (flds : list (string * field)) :
  forall fm pre fm' es,
  form_fields fm = (pre ++ flds)%list ->
  build_inputs fm flds (length pre) = Ok (fm', es) ->
  form_title fm' = form_title fm /\ form_instructions fm' = form_instructions fm /\
  form_fields fm' = (pre ++ map (fun p => (fst p, init_field (snd p))) flds)%list /\
  map entry_summary es = visible_summary flds (length pre).
Proof.
  induction flds as [|[name fld] flds IH]; intros fm pre fm' es Hf H; simpl in H.
  - injection H as <- <-. rewrite Hf. auto.
  - destruct (make_input fm (length pre) fld) as [[fm1 oe]|] eqn:Hm; cbn [res_bind] in H;
      [|discriminate].
    destruct (build_inputs fm1 flds (S (length pre))) as [[fm2 es2]|] eqn:Hb;
      cbn [res_bind] in H; [|discriminate].
    injection H as <- <-.
    destruct (make_input_init fm fm1 pre flds name fld oe Hf Hm) as [M1 [M2 [M3 M4]]].
    assert (Hl : S (length pre) = length (pre ++ [(name, init_field fld)])%list)
      by (rewrite length_app; simpl; lia).
    rewrite Hl in Hb.
    destruct (IH fm1 (pre ++ [(name, init_field fld)])%list fm2 es2) as [I1 [I2 [I3 I4]]].
    { rewrite M3, <- app_assoc. reflexivity. }
    { exact Hb. }
    split; [congruence|]. split; [congruence|].
    split; [rewrite I3, <- app_assoc; reflexivity|].
    rewrite <- Hl in I4. cbn [visible_summary map] in M4 |- *.
    destruct (String.eqb (f_type fld) "hidden");
      destruct oe as [e|]; cbn [map visible_summary] in M4 |- *; try discriminate.
    + exact I4.
    + rewrite I4. f_equal. congruence.
Qed.

(** [FormWin(form)]: every visible field, and only those, gets an entry,
    in field order; the entry refers to its field, carries its label (the
    value for a fixed field) and instructions, and is inert exactly for a
    fixed field.  The only write to the form gives a visible field of an
    unknown type its type name as value; the focus starts at 0. *)
Theorem formwin_init_entries (fm fm1 : form) (fw : formwin) :
  formwin_init fm = Ok (fm1, fw) ->
  current_input fw = 0 /\
  map entry_summary (inputs fw) = visible_summary (form_fields fm) 0 /\
  form_fields fm1 = map (fun p => (fst p, init_field (snd p))) (form_fields fm) /\
  form_title fm1 = form_title fm /\ form_instructions fm1 = form_instructions fm.
Proof.
  unfold formwin_init. intros H.
  destruct (build_inputs fm (form_fields fm) 0) as [[fm2 es]|] eqn:Hb; cbn [res_bind] in H;
    [|discriminate].
  injection H as <- <-.
  destruct (build_inputs_init (form_fields fm) fm [] fm2 es eq_refl Hb) as [B1 [B2 [B3 B4]]].
  simpl. auto.
Qed.

Lemma formwin_init_entries_witness :
  exists fm1 fw, formwin_init form_hidden_fixed_text = Ok (fm1, fw) /\
  current_input fw = 0 /\
  map entry_summary (inputs fw) = visible_summary (form_fields form_hidden_fixed_text) 0 /\
  form_fields fm1 = map (fun p => (fst p, init_field (snd p))) (form_fields form_hidden_fixed_text) /\
  form_title fm1 = form_title form_hidden_fixed_text /\
  form_instructions fm1 = form_instructions form_hidden_fixed_text.
Proof.
  eexists; eexists; split; [reflexivity|].
  exact (formwin_init_entries form_hidden_fixed_text _ _ eq_refl).
Defined.

(** ** Further properties of navigation and input *)

Lemma set_input_color_strip (c i : nat) (es es' : list entry) :
  set_input_color c i es = Ok es' ->
  map strip_color es' = map strip_color es /\ length es' = length es.
Proof.
  unfold set_input_color, lookup. intros H.
  destruct (nth_error es i) as [e|] eqn:He; cbn [res_bind] in H; [|discriminate].
  unfold set_color in H.
  destruct (refresh (mkWidget (w_field (e_input e)) c (w_state (e_input e))));
    cbn [res_bind] in H; [|discriminate].
  injection H as <-. split; [|apply length_update_nth].
  rewrite map_update_nth. apply update_nth_same.
  rewrite nth_error_map, He. reflexivity.
Qed.

(** [go_to_next_input] on widgets that all redraw: it never raises; the
    focus stays where it is only on the last widget, otherwise it moves
    forward past inert widgets only; it never changes anything of the
    widgets but their colors, and they still all redraw. *)
Theorem go_next_total (fw : formwin) :
  Forall refreshable (inputs fw) ->
  current_input fw < length (inputs fw) ->
  exists fw', go_to_next_input fw = Ok fw' /\
    current_input fw <= current_input fw' < length (inputs fw) /\
    (current_input fw' = current_input fw -> current_input fw = length (inputs fw) - 1) /\
    (forall k, current_input fw < k < current_input fw' -> inert_at (inputs fw) k = true) /\
    map strip_color (inputs fw') = map strip_color (inputs fw) /\
    Forall refreshable (inputs fw').
Proof.
  destruct fw as [es c]; simpl. intros Hr Hc.
  unfold go_to_next_input; simpl.
  destruct es as [|e0 es0] eqn:Ees; [simpl in Hc; lia|]. rewrite <- Ees in *.
  destruct (Nat.eqb_spec c (length es - 1)) as [Hlast|Hne].
  - exists (mkFormWin es c). simpl. repeat split; auto; intros; lia.
  - destruct (set_input_color_spec 14 c es Hr Hc) as [es1 [Hs1 [Hl1 [Hi1 Hr1]]]].
    destruct (set_input_color_strip 14 c es es1 Hs1) as [St1 _].
    rewrite Hs1. cbn [res_bind].
    destruct (next_scan_spec (length es1) es1 (c + 1) 0) as [j [Hj [_ [Hjn [Hjd Hjl]]]]];
      try lia.
    rewrite Hj. cbn [res_bind].
    destruct (lookup_in_range es1 (c + 1 + j) ltac:(lia)) as [e [He Hl]].
    rewrite Hl. cbn [res_bind].
    destruct (entry_is_dummy e) eqn:Hd.
    + exists (mkFormWin es1 (c + 1)). simpl.
      repeat split; auto; try lia.
    + destruct (set_input_color_spec 13 (c + 1 + j) es1 Hr1 ltac:(lia))
        as [es2 [Hs2 [Hl2 [Hi2 Hr2]]]].
      destruct (set_input_color_strip 13 (c + 1 + j) es1 es2 Hs2) as [St2 _].
      rewrite Hs2. cbn [res_bind].
      exists (mkFormWin es2 (c + 1 + j)). simpl.
      split; [reflexivity|]. split; [lia|]. split; [lia|]. split.
      * intros k Hk. rewrite <- Hi1.
        replace k with (c + 1 + (k - (c + 1))) by lia. apply Hjd. lia.
      * split; [congruence|exact Hr2].
Qed.

Lemma go_next_total_witness :
  exists fw', go_to_next_input (focus_at 0 (session_init form_hidden_fixed_text)) = Ok fw' /\
    0 <= current_input fw' < 2 /\
    (current_input fw' = 0 -> 0 = 2 - 1) /\
    (forall k, 0 < k < current_input fw' ->
       inert_at (inputs (focus_at 0 (session_init form_hidden_fixed_text))) k = true) /\
    map strip_color (inputs fw') =
      map strip_color (inputs (focus_at 0 (session_init form_hidden_fixed_text))) /\
    Forall refreshable (inputs fw').
Proof.
  exact (go_next_total (focus_at 0 (session_init form_hidden_fixed_text))
           ltac:(vm_compute; repeat constructor) ltac:(vm_compute; lia)).
Defined.

(** [go_to_previous_input], when it does not raise, never moves the focus
    forward and never changes anything of the widgets but their colors. *)
Theorem go_prev_frame (fw fw' : formwin) :
  go_to_previous_input fw = Ok fw' ->
  current_input fw' <= current_input fw /\
  map strip_color (inputs fw') = map strip_color (inputs fw) /\
  length (inputs fw') = length (inputs fw).
Proof.
  destruct fw as [es c]. unfold go_to_previous_input; simpl. intros H.
  destruct es as [|e0 es0] eqn:Ees; [injection H as <-; auto|]. rewrite <- Ees in *.
  destruct (Nat.eqb c 0); [injection H as <-; auto|].
  destruct (set_input_color 14 c es) as [es1|] eqn:Hs1; cbn [res_bind] in H; [|discriminate].
  destruct (set_input_color_strip _ _ _ _ Hs1) as [St1 Ln1].
  destruct (prev_scan es1 (c - 1) 0 (c - 1)) as [j|]; cbn [res_bind] in H; [|discriminate].
  destruct (lookup es1 (c - 1 + j)) as [e|]; cbn [res_bind] in H; [|discriminate].
  destruct (entry_is_dummy e).
  - injection H as <-. simpl. split; [lia|auto].
  - destruct (set_input_color 13 (c - 1 - j) es1) as [es2|] eqn:Hs2; cbn [res_bind] in H;
      [|discriminate].
    destruct (set_input_color_strip _ _ _ _ Hs2) as [St2 Ln2].
    injection H as <-. simpl. split; [lia|]. split; congruence.
Qed.

Lemma go_prev_frame_witness :
  exists fw', go_to_previous_input (focus_at 1 (session_init form_two_texts)) = Ok fw' /\
  current_input fw' <= 1 /\
  map strip_color (inputs fw') = map strip_color (inputs (focus_at 1 (session_init form_two_texts))) /\
  length (inputs fw') = length (inputs (focus_at 1 (session_init form_two_texts))).
Proof.
  eexists. split; [reflexivity|].
  exact (go_prev_frame (focus_at 1 (session_init form_two_texts)) _ ltac:(reflexivity)).
Defined.

Lemma call_do_command_frame (w w' : widget) (args : list string) :
  call_do_command w args = Ok w' ->
  w_field w' = w_field w /\ w_color w' = w_color w /\ is_dummy w' = is_dummy w.
Proof.
  destruct w as [f c st]. unfold call_do_command, do_command_key, with_state, is_dummy.
  cbn [w_state w_field w_color].
  destruct st as [|lk v|opts p|opts p|t p|t p];
    destruct args as [|k [|k2 args]]; intros H; try discriminate;
    [injection H as <-; auto|..];
    repeat match type of H with
    | context[if ?b then _ else _] => destruct b
    | context[lookup ?l ?q] => destruct (lookup l q); cbn [res_bind] in H; [|discriminate H]
    | context[refresh ?x] => destruct (refresh x); cbn [res_bind] in H; [|discriminate H]
    | context[input_do_command ?a ?b ?d] => destruct (input_do_command a b d)
    end;
    injection H as <-; auto.
Qed.

(** [FormWin.on_input(key)], when it does not raise, changes only the
    focused widget, keeps the focus, and keeps the widget's field, color,
    label, instructions and inertness: a key only edits a widget's
    transient state. *)
Theorem on_input_frame (fw fw' : formwin) (key : string) :
  formwin_on_input fw key = Ok fw' ->
  current_input fw' = current_input fw /\
  length (inputs fw') = length (inputs fw) /\
  (forall k, k <> current_input fw -> nth_error (inputs fw') k = nth_error (inputs fw) k) /\
  (forall e, nth_error (inputs fw) (current_input fw) = Some e ->
     exists e', nth_error (inputs fw') (current_input fw) = Some e' /\
       e_label e' = e_label e /\ e_instructions e' = e_instructions e /\
       w_field (e_input e') = w_field (e_input e) /\
       w_color (e_input e') = w_color (e_input e) /\
       is_dummy (e_input e') = is_dummy (e_input e)).
Proof.
  destruct fw as [es c]. unfold formwin_on_input; simpl. intros H.
  destruct es as [|e0 es0] eqn:Ees.
  - injection H as <-. simpl. split; [reflexivity|]. split; [reflexivity|].
    split; [reflexivity|]. intros e He. destruct c; discriminate.
  - rewrite <- Ees in *.
    unfold lookup in H. destruct (nth_error es c) as [e|] eqn:He; cbn [res_bind] in H;
      [|discriminate].
    destruct (call_do_command (e_input e) [key]) as [w|] eqn:Hw; cbn [res_bind] in H;
      [|discriminate].
    injection H as <-. simpl.
    destruct (call_do_command_frame _ _ _ Hw) as [W1 [W2 W3]].
    split; [reflexivity|]. split; [apply length_update_nth|]. split.
    + intros k Hk. rewrite nth_error_update_nth. apply Nat.eqb_neq in Hk. rewrite Hk.
      reflexivity.
    + intros e1 He1. injection He1 as <-.
      exists (mkEntry (e_label e) (e_instructions e) w).
      rewrite nth_error_update_nth, Nat.eqb_refl, He. simpl. repeat split; assumption.
Qed.

Lemma on_input_frame_witness :
  exists fw', formwin_on_input (win_of (session_init form_two_texts)) "x" = Ok fw' /\
  current_input fw' = 0 /\
  length (inputs fw') = 2 /\
  (forall k, k <> 0 -> nth_error (inputs fw') k =
                       nth_error (inputs (win_of (session_init form_two_texts))) k) /\
  (forall e, nth_error (inputs (win_of (session_init form_two_texts))) 0 = Some e ->
     exists e', nth_error (inputs fw') 0 = Some e' /\
       e_label e' = e_label e /\ e_instructions e' = e_instructions e /\
       w_field (e_input e') = w_field (e_input e) /\
       w_color (e_input e') = w_color (e_input e) /\
       is_dummy (e_input e') = is_dummy (e_input e)).
Proof.
  eexists. split; [reflexivity|].
  exact (on_input_frame (win_of (session_init form_two_texts)) _ "x" ltac:(reflexivity)).
Defined.

(** ** Further properties of submitting *)

Lemma visible_summary_in (flds : list (string * field)) :
  forall i k l ins d, In (k, l, ins, d) (visible_summary flds i) ->
  exists name fld, i <= k /\ nth_error flds (k - i) = Some (name, fld) /\
    f_type fld <> "hidden" /\ d = String.eqb (f_type fld) "fixed".
Proof.
  induction flds as [|[name fld] flds IH]; intros i k l ins d H; simpl in H; [contradiction|].
  destruct (String.eqb_spec (f_type fld) "hidden") as [Hh|Hh].
  - destruct (IH _ _ _ _ _ H) as [n [f [H1 [H2 H3]]]].
    exists n, f. split; [lia|]. replace (k - i) with (S (k - S i)) by lia. auto.
  - destruct H as [H|H].
    + injection H as <- _ _ <-. exists name, fld. rewrite Nat.sub_diag. auto.
    + destruct (IH _ _ _ _ _ H) as [n [f [H1 [H2 H3]]]].
      exists n, f. split; [lia|]. replace (k - i) with (S (k - S i)) by lia. auto.
Qed.

Lemma list_single_ok_forall (fm : form) :
  list_single_ok fm = true ->
  Forall (fun p => f_type (snd p) = "list-single" -> f_options (snd p) <> []) (form_fields fm).
Proof.
  intros Hok. apply Forall_forall. intros p Hp Ht.
  unfold list_single_ok in Hok. rewrite forallb_forall in Hok.
  specialize (Hok p Hp). rewrite Ht in Hok. simpl in Hok.
  destruct (f_options (snd p)); [discriminate|congruence].
Qed.

(** Submitting ([DataFormsTab.on_send]) from a session built on a field
    set satisfying the list-single invariant never raises, keeps the
    window, and leaves every fixed and every hidden field exactly as it
    was given: no widget's reply writes a field it does not stand for. *)
Theorem on_send_keeps_unanswered (form_reply : form -> form) (fm : form) (s : session) :
  (forall f, form_fields (form_reply f) = form_fields f) ->
  list_single_ok fm = true ->
  session_init fm = Ok s ->
  exists s' evs, on_send form_reply s = Ok (s', evs) /\ s_win s' = s_win s /\
    (forall j name fld, nth_error (form_fields fm) j = Some (name, fld) ->
       f_type fld = "fixed" \/ f_type fld = "hidden" ->
       nth_error (form_fields (s_form s')) j = Some (name, fld)).
Proof.
  intros Hfr Hok Hs.
  unfold session_init, formwin_init in Hs.
  destruct (build_inputs fm (form_fields fm) 0) as [[fm1 es]|] eqn:Hb; cbn [res_bind] in Hs;
    [|discriminate].
  injection Hs as <-.
  destruct (build_inputs_spec (form_fields fm) fm 0 fm1 es (fun k => eq_refl)
              (list_single_ok_forall fm Hok) Hb) as [_ [_ [_ B4]]].
  destruct (build_inputs_init (form_fields fm) fm [] fm1 es eq_refl Hb) as [_ [_ [I3 I4]]].
  destruct (reply_inputs_ok es 0 (form_reply fm1) B4) as [[evs fm2] Hr].
  destruct (reply_inputs_spec es 0 (form_reply fm1) evs fm2 Hr) as [_ [_ R3]].
  unfold on_send, formwin_reply. simpl. rewrite Hr. cbn [res_bind].
  eexists; eexists; split; [reflexivity|]. split; [reflexivity|].
  intros j name fld Hj Ht. simpl. rewrite R3.
  - rewrite Hfr, I3. simpl. rewrite nth_error_map, Hj. simpl.
    unfold init_field.
    destruct Ht as [Ht|Ht]; rewrite Ht; reflexivity.
  - intros e He Hd Heq.
    assert (Hin : In (entry_summary e) (visible_summary (form_fields fm) 0)).
    { simpl length in I4. rewrite <- I4. apply in_map. exact He. }
    unfold entry_summary in Hin.
    destruct (visible_summary_in _ _ _ _ _ _ Hin) as [n [f [_ [Hn [Hh Hdf]]]]].
    rewrite Nat.sub_0_r, Heq, Hj in Hn. injection Hn as <- <-.
    unfold entry_is_dummy in Hd. rewrite Hd in Hdf.
    destruct Ht as [Ht|Ht]; [rewrite Ht in Hdf; discriminate|contradiction].
Qed.

Lemma on_send_keeps_unanswered_witness :
  exists s, session_init form_hidden_fixed_text = Ok s /\
  exists s' evs, on_send (fun f => f) s = Ok (s', evs) /\ s_win s' = s_win s /\
    (forall j name fld, nth_error (form_fields form_hidden_fixed_text) j = Some (name, fld) ->
       f_type fld = "fixed" \/ f_type fld = "hidden" ->
       nth_error (form_fields (s_form s')) j = Some (name, fld)).
Proof.
  eexists; split; [reflexivity|].
  exact (on_send_keeps_unanswered (fun f => f) form_hidden_fixed_text _ (fun _ => eq_refl)
           eq_refl eq_refl).
Defined.

(** A widget's reply, when it does not raise, writes only the field the
    widget stands for, and changes no field's name or type. *)
Theorem widget_reply_own_field_only (w : widget) (fm fm' : form) :
  widget_reply w fm = Ok fm' ->
  kinds fm' = kinds fm /\ length (form_fields fm') = length (form_fields fm) /\
  (forall j, j <> w_field w -> nth_error (form_fields fm') j = nth_error (form_fields fm) j).
Proof.
  intros H. destruct (widget_reply_frame w fm fm' H) as [H1 H2].
  split; [exact H1|]. split; [|exact H2].
  assert (Hl : length (kinds fm') = length (kinds fm)) by (rewrite H1; reflexivity).
  unfold kinds in Hl. rewrite !length_map in Hl. exact Hl.
Qed.

Lemma widget_reply_own_field_only_witness :
  exists fm', widget_reply (mkWidget 1 13 (TextSingleWin "bob" 3)) form_two_texts = Ok fm' /\
  kinds fm' = kinds form_two_texts /\ length (form_fields fm') = 2 /\
  (forall j, j <> 1 -> nth_error (form_fields fm') j = nth_error (form_fields form_two_texts) j).
Proof.
  eexists. split; [reflexivity|].
  exact (widget_reply_own_field_only (mkWidget 1 13 (TextSingleWin "bob" 3)) form_two_texts _
           ltac:(reflexivity)).
Defined.

(** Whatever keys a focused [ListSingleWin] with its cursor on an option
    receives, its reply afterwards does not raise and answers the value
    of one of its options. *)
Theorem list_single_keys_then_reply (f c : nat) (opts : list option_) (pos : nat)
    (keys : list string) (fm : form) (fld : field) :
  pos < length opts -> get_field fm f = Some fld ->
  exists w' fm' o, run_keys (mkWidget f c (ListSingleWin opts pos)) keys = Ok w' /\
    In o opts /\ widget_reply w' fm = Ok fm' /\
    get_field fm' f = Some (mkField (f_type fld) "" (f_instructions fld) (PStr (o_value o)) []).
Proof.
  intros Hp Hg.
  destruct (list_single_keys_stay keys f c opts pos Hp) as [pos' [Hr Hp']].
  destruct (lookup_in_range opts pos' Hp') as [o [Ho Hl]].
  exists (mkWidget f c (ListSingleWin opts pos')). eexists. exists o.
  split; [exact Hr|]. split; [eapply nth_error_In; exact Ho|].
  unfold widget_reply. cbn [w_state w_field]. rewrite Hl. cbn [res_bind].
  split; [reflexivity|].
  rewrite !get_field_modify_same, Hg. reflexivity.
Qed.

Lemma list_single_keys_then_reply_witness :
  exists w' fm' o, run_keys (mkWidget 0 13 (ListSingleWin options_ABC 0))
                     ["KEY_RIGHT"; "KEY_LEFT"; "KEY_RIGHT"] = Ok w' /\
    In o options_ABC /\
    widget_reply w' (mk_form [("s", mk_field "list-single" (PStr "A") options_ABC)]) = Ok fm' /\
    get_field fm' 0 = Some (mkField "list-single" "" "" (PStr (o_value o)) []).
Proof.
  exact (list_single_keys_then_reply 0 13 options_ABC 0 ["KEY_RIGHT"; "KEY_LEFT"; "KEY_RIGHT"]
           (mk_form [("s", mk_field "list-single" (PStr "A") options_ABC)])
           (mk_field "list-single" (PStr "A") options_ABC) ltac:(simpl; lia) eq_refl).
Defined.
